(** * Default state commands of the plugin: a verification development

    The development embeds the command handlers registered by
    [registerDefault]: the behavior synchronisation hook, the removal of an
    object together with its ghost ancestors, the propagation of visibility
    over a subtree, and the snapshot commands (apply, upload, export to a
    file, open from a file).

    Conventions.  A text is the [string] of its UTF-8 units, in memory and
    in files alike; the string operations of the handlers ([toLowerCase]
    ahead of a test for [json], [indexOf] of a slash, [encodeURIComponent])
    are modelled on these units and only tell ASCII characters apart.  An
    [Immutable.Map] is a [gmap]; an ordered set of child references is a
    [list].  A plain JavaScript object used as a dictionary is an
    insertion-ordered association list ([JsObject]).  Calls made to
    collaborators that live outside the handlers (asset manager, state,
    logger, file reader) are recorded as a trace of events. *)

From Stdlib Require Import Ascii String.
From stdpp Require Import gmap strings list.

Local Open Scope string_scope.
Local Open Scope list_scope.

(** Outcome of a piece of JavaScript that may throw. *)
Inductive result (A : Type) : Type :=
| Ok (a : A)
| Throw.
Arguments Ok {A} a.
Arguments Throw {A}.

(** ** The state tree and its cells *)

Module StateTree.

(** [StateTransform.State]: the display flags carried by a transform. *)
Record TransformState := mkTransformState {
  isGhost : bool;
  isHidden : bool;
  isCollapsed : bool
}.

Record StateTransform := mkTransform {
  parent : string;
  ref : string;
  state : TransformState
}.

(** [StateTree]: [transforms] maps a reference to its node, [children]
    maps a reference to the ordered set of its child references. *)
Record Tree := mkTree {
  transforms : gmap string StateTransform;
  children : gmap string (list string)
}.

(** The [while (true)] loop of the [RemoveObject] handler, entered with
    [curr].  [None] means the fuel ran out; [Some Throw] is the
    [TypeError] raised when a property of [undefined] is read. *)
Fixpoint ghostWalk (fuel : nat) (tree : Tree) (curr : StateTransform)
  : option (result string) :=
  match fuel with
  | O => None
  | S n =>
    let children := children tree !! parent curr in
    if String.eqb (parent curr) (ref curr) then Some (Ok (ref curr))
    else match children with
         | None => Some Throw
         | Some cs =>
           if Nat.ltb 1 (length cs) then Some (Ok (ref curr))
           else match transforms tree !! parent curr with
                | None => Some Throw
                | Some p =>
                  if negb (isGhost (state p)) then Some (Ok (ref curr))
                  else ghostWalk n tree p
                end
         end
  end.

(** The reference handed to [remove] by the [RemoveObject] handler. *)
Definition removeTarget (fuel : nat) (tree : Tree) (r : string)
    (removeParentGhosts : bool) : option (result string) :=
  if removeParentGhosts then
    match transforms tree !! r with
    | None => Some Throw
    | Some curr =>
      if String.eqb (parent curr) r then Some (Ok r)
      else ghostWalk fuel tree curr
    end
  else Some (Ok r).

(** The children of a node are visited left to right, each with the
    context left by its predecessor.  [None]: a child reference without a
    node, or a visit that did not finish. *)
Fixpoint visitChildren {S : Type} (visit : StateTransform -> S -> option S)
    (tree : Tree) (cs : list string) (acc : S) : option S :=
  match cs with
  | [] => Some acc
  | c :: cs' =>
    match transforms tree !! c with
    | None => None
    | Some t =>
      match visit t acc with
      | None => None
      | Some acc' => visitChildren visit tree cs' acc'
      end
    end
  end.

(** Modelled from the spec: the pre-order traversal primitive
    [StateTree.doPreOrder], absent from the sources at hand.  It visits a
    subtree root, then its children left to right by insertion order,
    threading the visitor's context.  [None]: fuel exhausted, or a child
    reference without a node. *)
Fixpoint doPreOrder {S : Type} (fuel : nat) (tree : Tree)
    (root : StateTransform) (s : S)
    (f : StateTransform -> Tree -> S -> S) : option S :=
  match fuel with
  | O => None
  | S n =>
    visitChildren (fun t acc => doPreOrder n tree t acc f) tree
      (default [] (children tree !! ref root)) (f root tree s)
  end.

(** A visitor that records the reference it is given. *)
Definition collect : StateTransform -> Tree -> list string -> list string :=
  fun t _ acc => acc ++ [ref t].

(** The references of a subtree in visiting order. *)
Definition preOrderRefs (fuel : nat) (tree : Tree) (root : StateTransform)
  : option (list string) :=
  doPreOrder fuel tree root [] collect.

(** The references of the children's subtrees, one list per child. *)
Definition childLists (tree : Tree) (n : nat) (cs : list string)
    (rss : list (list string)) : Prop :=
  Forall2 (fun c rs => exists tc, transforms tree !! c = Some tc
                                   /\ preOrderRefs n tree tc = Some rs) cs rss.

(** Modelled from the spec: [delete(ref)] of the tree builder, absent from
    the sources at hand.  It removes the node and its entire subtree, and
    rejects ([Throw]) a reference absent from the tree.  [None]: the
    listing of the subtree did not finish. *)
Definition delete (fuel : nat) (tree : Tree) (r : string) : option (result Tree) :=
  match transforms tree !! r with
  | None => Some Throw
  | Some t =>
    match preOrderRefs fuel tree t with
    | None => None
    | Some sub =>
      Some (Ok {| transforms := foldr (fun k m => base.delete k m) (transforms tree) sub;
                  children :=
                    (fun cs => filter (fun c => c ∉ sub) cs) <$>
                      foldr (fun k m => base.delete k m) (children tree) sub |})
    end
  end.

(** [remove(state, ref)] of the handler: build the tree without [ref] (the
    update of the state then commits it). *)
Definition remove (fuel : nat) (tree : Tree) (r : string) : option (result Tree) :=
  delete fuel tree r.

(** The whole [RemoveObject] handler on the committed tree. *)
Definition RemoveObject (fuel : nat) (tree : Tree) (r : string)
    (removeParentGhosts : bool) : option (result Tree) :=
  match removeTarget fuel tree r removeParentGhosts with
  | None => None
  | Some Throw => Some Throw
  | Some (Ok target) => remove fuel tree target
  end.

(** The reading of the ghost cascade in the specification's words, kept
    apart from [ghostWalk] for comparison: walk upward while the immediate
    parent is not the tree root, has exactly one child and is flagged
    [isGhost]. *)
Fixpoint specGhostWalk (fuel : nat) (tree : Tree) (curr : StateTransform)
  : option (result string) :=
  match fuel with
  | O => None
  | S n =>
    match transforms tree !! parent curr, children tree !! parent curr with
    | Some p, Some cs =>
      if negb (String.eqb (parent p) (ref p)) && Nat.eqb (length cs) 1
         && isGhost (state p)
      then specGhostWalk n tree p
      else Some (Ok (ref curr))
    | _, _ => Some Throw
    end
  end.

Definition specRemoveTarget (fuel : nat) (tree : Tree) (r : string)
  : option (result string) :=
  match transforms tree !! r with
  | None => Some Throw
  | Some curr => specGhostWalk fuel tree curr
  end.

(** *** Cells *)

Inductive Status := pending | ok | error.

(** A cell: evaluation status and display flags (the computed object plays
    no part in the commands below). *)
Record Cell := mkCell {
  status : Status;
  cellState : TransformState
}.

(** [State]: the committed tree and the cell store. *)
Record State := mkState {
  tree : Tree;
  cells : gmap string Cell
}.

Definition withHidden (v : bool) (s : TransformState) : TransformState :=
  {| isGhost := isGhost s; isHidden := v; isCollapsed := isCollapsed s |}.

Definition setHidden (v : bool) (c : Cell) : Cell :=
  {| status := status c; cellState := withHidden v (cellState c) |}.

(** Modelled from the spec: [updateCellState(ref, { isHidden })] of the
    state, absent from the sources at hand.  It sets the flag on the cell
    of [r]; a reference without a cell is left alone. *)
Definition updateCellState (cs : gmap string Cell) (r : string) (v : bool)
  : gmap string Cell :=
  match cs !! r with
  | None => cs
  | Some c => <[r := setHidden v c]> cs
  end.

Definition setVisibilityVisitor (value : bool) (t : StateTransform)
    (_ : Tree) (cs : gmap string Cell) : gmap string Cell :=
  updateCellState cs (ref t) value.

Definition setSubtreeVisibility (fuel : nat) (st : State) (root : string)
    (value : bool) : option State :=
  match transforms (tree st) !! root with
  | None => None
  | Some t =>
    match doPreOrder fuel (tree st) t (cells st) (setVisibilityVisitor value) with
    | None => None
    | Some cs => Some {| tree := tree st; cells := cs |}
    end
  end.

(** *** Shape predicates used in the statements *)

(** [linked tree t n]: [t] reaches the root in [n] parent steps, each
    parent being a node of the tree that lists [t] among its children. *)
Inductive linked (tree : Tree) : StateTransform -> nat -> Prop :=
| linked_root t : parent t = ref t -> linked tree t 0
| linked_step t p cs n :
    parent t <> ref t ->
    transforms tree !! parent t = Some p ->
    children tree !! parent t = Some cs ->
    ref t ∈ cs ->
    linked tree p n ->
    linked tree t (S n).

(** One upward step of the cascade, from [c] to its parent [p]: [c] is not
    the root, its parent has exactly one child and is a ghost. *)
Definition ghostStep (tree : Tree) (c p : StateTransform) : Prop :=
  parent c <> ref c
  /\ (exists cs, children tree !! parent c = Some cs /\ length cs = 1)
  /\ transforms tree !! parent c = Some p
  /\ isGhost (state p) = true.

Inductive ghostClimb (tree : Tree) : StateTransform -> StateTransform -> Prop :=
| climb_here c : ghostClimb tree c c
| climb_up c p t : ghostStep tree c p -> ghostClimb tree p t -> ghostClimb tree c t.

(** Where the cascade stops: at the root, below a parent with several
    children, or below a parent that is not a ghost. *)
Definition ghostStop (tree : Tree) (t : StateTransform) : Prop :=
  parent t = ref t
  \/ (exists cs, children tree !! parent t = Some cs /\ 1 < length cs)
  \/ (exists p, transforms tree !! parent t = Some p /\ isGhost (state p) = false).

(** [bounded tree h t]: the subtree of [t] has height below [h] and every
    child reference in it has a node. *)
Fixpoint bounded (tree : Tree) (h : nat) (t : StateTransform) : Prop :=
  match h with
  | O => False
  | S h' =>
    forall c, c ∈ default [] (children tree !! ref t) ->
      exists tc, transforms tree !! c = Some tc /\ bounded tree h' tc
  end.

(** [descends tree t d]: [d] is [t] or a descendant of [t]. *)
Inductive descends (tree : Tree) : StateTransform -> StateTransform -> Prop :=
| descends_self t : descends tree t t
| descends_child t c tc d :
    c ∈ default [] (children tree !! ref t) ->
    transforms tree !! c = Some tc ->
    descends tree tc d ->
    descends tree t d.

(** *** Example trees and states *)

Definition plain : TransformState :=
  {| isGhost := false; isHidden := false; isCollapsed := false |}.
Definition ghost : TransformState :=
  {| isGhost := true; isHidden := false; isCollapsed := false |}.

Definition node (p r : string) (s : TransformState) : string * StateTransform :=
  (r, {| parent := p; ref := r; state := s |}).

(** root -> G1 (ghost) -> G2 (ghost) -> L *)
Definition chainTree : Tree :=
  {| transforms := list_to_map
       [node "root" "root" plain; node "root" "G1" ghost;
        node "G1" "G2" ghost; node "G2" "L" plain];
     children := list_to_map
       [("root", ["G1"]); ("G1", ["G2"]); ("G2", ["L"]); ("L", [])] |}.

Definition rootOnly : Tree :=
  {| transforms := list_to_map [node "root" "root" plain];
     children := list_to_map [("root", [])] |}.

Definition shown : Cell := {| status := ok; cellState := plain |}.

(** The chain with a cell for every node but [G2]. *)
Definition chainState : State :=
  {| tree := chainTree;
     cells := list_to_map [("root", shown); ("G1", shown); ("L", shown)] |}.

(** root (ghost) -> L *)
Definition ghostRootTree : Tree :=
  {| transforms := list_to_map
       [node "root" "root" ghost; node "root" "L" plain];
     children := list_to_map [("root", ["L"]); ("L", [])] |}.

End StateTree.

(** ** The behavior synchronisation hook *)

Module Behaviors.

(** The type class of a state object, as tested by the [is...] guards. *)
Inductive TypeClass :=
| Root | Group | Data | Object | Visual | Representation3D | Behavior.

(** A state object: its type class and the identity of its payload (for a
    behavior, the behavior instance whose hooks are called). *)
Record StateObject := mkObject {
  typeClass : TypeClass;
  data : nat
}.

(** Modelled from the spec: [SO.isBehavior], defined with the plugin state
    objects and not among these sources; a test of the discriminant, false
    on a missing object. *)
Definition isBehavior (o : option StateObject) : bool :=
  match o with
  | Some {| typeClass := Behavior |} => true
  | _ => false
  end.

Inductive Action := recreate | in_place.

(** The three object notifications of the state. *)
Inductive ObjectEvent :=
| created (ref : string) (obj : option StateObject)
| removed (ref : string) (obj : option StateObject)
| updated (ref : string) (action : Action) (oldObj obj : option StateObject).

(** Calls received by behavior instances. *)
Inductive Call :=
| register (behavior : nat) (ref : string)
| unregister (behavior : nat).

Definition payload (o : option StateObject) : nat :=
  match o with Some x => data x | None => 0 end.

Definition onCreated (ref : string) (obj : option StateObject) : list Call :=
  if negb (isBehavior obj) then []
  else [register (payload obj) ref].

Definition onRemoved (ref : string) (obj : option StateObject) : list Call :=
  if negb (isBehavior obj) then []
  else [unregister (payload obj)].

Definition onUpdated (ref : string) (action : Action)
    (oldObj obj : option StateObject) : list Call :=
  match action with
  | recreate =>
    (if isBehavior oldObj then [unregister (payload oldObj)] else [])
    ++ (if isBehavior obj then [register (payload obj) ref] else [])
  | in_place => []
  end.

(** The subscriptions installed by [SyncBehaviors], as the calls one
    notification gives rise to. *)
Definition SyncBehaviors (e : ObjectEvent) : list Call :=
  match e with
  | created ref obj => onCreated ref obj
  | removed ref obj => onRemoved ref obj
  | updated ref action oldObj obj => onUpdated ref action oldObj obj
  end.

End Behaviors.

(** ** JavaScript strings *)

Module JsString.

Definition charCode (c : ascii) : N := N_of_ascii c.

Definition lowerChar (c : ascii) : ascii :=
  if (N.leb 65 (charCode c) && N.leb (charCode c) 90)%N
  then ascii_of_N (charCode c + 32) else c.

(** [String.prototype.toLowerCase], on the ASCII letters. *)
Fixpoint toLowerCase (s : string) : string :=
  match s with
  | EmptyString => EmptyString
  | String c s' => String (lowerChar c) (toLowerCase s')
  end.

Fixpoint dropStr (n : nat) (s : string) : string :=
  match n, s with
  | O, _ => s
  | S n', EmptyString => EmptyString
  | S n', String _ s' => dropStr n' s'
  end.

(** [s.endsWith(search)]: compare the last [search.length] units. *)
Definition endsWith (s search : string) : bool :=
  if Nat.ltb (String.length s) (String.length search) then false
  else String.eqb (dropStr (String.length s - String.length search) s) search.

(** [s.indexOf(c)] for a one-character search string; [-1] when absent. *)
Fixpoint indexOf (c : ascii) (s : string) : Z :=
  match s with
  | EmptyString => (-1)%Z
  | String d s' =>
    if Ascii.eqb d c then 0%Z
    else match indexOf c s' with
         | Zneg _ => (-1)%Z
         | i => (i + 1)%Z
         end
  end.

(** [s.substring(start)]: a negative start counts as zero. *)
Definition substringFrom (start : Z) (s : string) : string :=
  dropStr (Z.to_nat start) s.

Definition hexDigit (d : N) : ascii :=
  if (d <? 10)%N then ascii_of_N (48 + d) else ascii_of_N (55 + d).

Definition inRange (lo hi : N) (c : ascii) : bool :=
  (N.leb lo (charCode c) && N.leb (charCode c) hi)%N.

(** The characters [encodeURIComponent] leaves alone:
    letters, digits and [- _ . ! ~ * ' ( )]. *)
Definition isUnreserved (c : ascii) : bool :=
  inRange 65 90 c || inRange 97 122 c || inRange 48 57 c
  || bool_decide (charCode c ∈ [45; 95; 46; 33; 126; 42; 39; 40; 41]%N).

(** [encodeURIComponent] on the UTF-8 units of the text: every unit outside
    the unreserved set becomes [%XX]. *)
Fixpoint encodeURIComponent (s : string) : string :=
  match s with
  | EmptyString => EmptyString
  | String c s' =>
    if isUnreserved c then String c (encodeURIComponent s')
    else String "%" (String (hexDigit (charCode c / 16))
                       (String (hexDigit (charCode c mod 16))
                          (encodeURIComponent s')))
  end.

Definition isDigit (c : ascii) : bool := inRange 48 57 c.

Fixpoint digitsValue (acc : N) (s : string) : option N :=
  match s with
  | EmptyString => Some acc
  | String c s' =>
    if isDigit c then digitsValue (acc * 10 + (charCode c - 48)) s' else None
  end.

(** The array index a property key denotes, if any: a canonical decimal
    numeral below [2^32 - 1]. *)
Definition arrayIndex (k : string) : option N :=
  match k with
  | EmptyString => None
  | String c rest =>
    if Ascii.eqb c "0" && negb (String.eqb rest EmptyString) then None
    else match digitsValue 0 k with
         | Some n => if (n <? 4294967295)%N then Some n else None
         | None => None
         end
  end.

(** [x || ''] on an optional string: [undefined] and [''] both give ['']. *)
Definition orEmpty (x : option string) : string := default "" x.

End JsString.

(** ** Plain objects used as dictionaries *)

Module JsObject.
Import JsString.

Section Obj.
Context {V : Type}.

(** An object is the list of its own string-keyed properties in creation
    order. *)

Fixpoint get (o : list (string * V)) (k : string) : option V :=
  match o with
  | [] => None
  | (k', v) :: o' => if String.eqb k' k then Some v else get o' k
  end.

(** [o[k] = v]: an existing property keeps its place, a new one is added
    last. *)
Fixpoint set (o : list (string * V)) (k : string) (v : V) : list (string * V) :=
  match o with
  | [] => [(k, v)]
  | (k', v') :: o' =>
    if String.eqb k' k then (k', v) :: o' else (k', v') :: set o' k v
  end.

Fixpoint insertIndexed (n : N) (e : string * V) (l : list (N * (string * V)))
  : list (N * (string * V)) :=
  match l with
  | [] => [(n, e)]
  | (m, e') :: l' =>
    if (n <? m)%N then (n, e) :: l else (m, e') :: insertIndexed n e l'
  end.

Definition indexedEntries (o : list (string * V)) : list (N * (string * V)) :=
  foldr (fun e acc =>
           match arrayIndex (fst e) with
           | Some n => insertIndexed n e acc
           | None => acc
           end) [] o.

(** The order in which [for ... in], [Object.keys] and the like enumerate
    the own properties: array indices ascending, then the other keys in
    creation order. *)
Definition ownEntries (o : list (string * V)) : list (string * V) :=
  map snd (indexedEntries o)
  ++ filter (fun e => arrayIndex (fst e) = None) o.

End Obj.

End JsObject.

(** ** The snapshot commands *)

Module Snapshots.
Import JsString.

Inductive AssetKind := url | file.

(** Asset metadata: [{ kind, id, url }] or [{ kind, id, name }]. *)
Record Asset := mkAsset {
  kind : AssetKind;
  assetId : string;
  target : string
}.

Record File := mkFile {
  name : string;
  content : string
}.

Inductive DataType := asString | asZip.

(** What the [try] block of the open handler can catch. *)
Inductive Error :=
| SyntaxError (text : string)
| TypeError
| ZipError.

(** The [init] argument of [fetch]; an absent member is [None]. *)
Record RequestInit := mkInit {
  method : string;
  mode : string;
  referrer : option string;
  referrerPolicy : option string;
  credentials : option string;
  headers : list (string * string);
  body : string
}.

Section Handlers.

(** A snapshot payload, as a value: what [getSnapshot] returns and what
    [JSON.parse] yields for a state text. *)
Variable Snapshot : Type.

Record Entry := mkEntry {
  entryId : string;
  entryName : option string;
  entryDescription : option string;
  timestamp : nat;
  snapshot : Snapshot
}.

(** Modelled from the spec: the body sent to the server, [{ name,
    description, playOnLoad, data }], built by [getRemoteSnapshot], which is
    absent from the sources at hand. *)
Record RemoteSnapshot := mkRemote {
  remoteName : option string;
  remoteDescription : option string;
  playOnLoad : option bool;
  data : Snapshot
}.

(** Calls made by the handlers to their collaborators, in program order. *)
Inductive Event :=
| ReadFromFile (f : File) (type : DataType)
| JsonParse (text : string)
| AssetSet (asset : Asset) (binary : option File)
| SetSnapshot (s : Snapshot)
| LogError (e : Error)
| Download (fileName mime blob : string)
| Fetch (target : string) (init : RequestInit).

(** Computations that log events and may throw. *)
Definition M (A : Type) : Type := list Event * (Error + A).

Definition ret {A} (a : A) : M A := ([], inr a).
Definition throw {A} (e : Error) : M A := ([], inl e).
Definition emit (ev : Event) : M unit := ([ev], inr tt).
Definition bind {A B} (m : M A) (k : A -> M B) : M B :=
  match m with
  | (tr, inl e) => (tr, inl e)
  | (tr, inr a) => let (tr', r) := k a in (tr ++ tr', r)
  end.

Notation "x <- m ;; k" := (bind m (fun x => k))
  (at level 100, m at next level, right associativity).
Notation "m ;;; k" := (bind m (fun _ => k))
  (at level 100, right associativity).

(** [try { m } catch (e) { ctx.log.error(...) }] *)
Definition tryLog (m : M unit) : list Event :=
  match m with
  | (tr, inl e) => tr ++ [LogError e]
  | (tr, inr _) => tr
  end.

(** The serialisers, parsers and helpers the handlers call but do not
    define: [JSON.parse] on a state text and on an asset index (an entry
    that cannot be destructured as [[id, asset]] is [None]), the archive
    reader and writer, [JSON.stringify], the clock and [urlCombine]. *)
Variable parseSnapshot : string -> option Snapshot.
Variable parseAssetIndex : string -> option (list (option (string * Asset))).
Variable unzip : string -> option (list (string * string)).
Variable stringifySnapshot : Snapshot -> string.
Variable stringifyAssets : list (string * Asset) -> string.
Variable zip : list (string * string) -> string.
Variable stringifyRemote : RemoteSnapshot -> string.
Variable getFormattedTime : string.
Variable urlCombine : string -> string -> string.

(** *** Apply *)

Record Manager := mkManager {
  entries : list Entry;
  current : option string
}.

(** The first stored entry with the given id. *)
Definition getEntry (m : Manager) (id : string) : option Entry :=
  List.find (fun e => String.eqb (entryId e) id) (entries m).

(** Modelled from the spec: [setCurrent(id)] of the snapshot manager,
    absent from the sources at hand.  It returns the entry's payload if
    found, else null, and marks the found entry current. *)
Definition setCurrent (m : Manager) (id : string) : option Snapshot * Manager :=
  match getEntry m id with
  | Some e => (Some (snapshot e), {| entries := entries m; current := Some id |})
  | None => (None, m)
  end.

(** The [Apply] handler; a payload is an object, hence truthy. *)
Definition Apply (m : Manager) (id : string) : Manager * list Event :=
  let (snapshot, m') := setCurrent m id in
  match snapshot with
  | None => (m', [])
  | Some s => (m', [SetSnapshot s])
  end.

(** *** Upload *)

(** Modelled from the spec: [getRemoteSnapshot] of the snapshot manager,
    absent from the sources at hand; it wraps the manager's payload with
    the three options it is given. *)
Definition getRemoteSnapshot (payload : Snapshot) (name description : option string)
    (playOnLoad : option bool) : RemoteSnapshot :=
  {| remoteName := name; remoteDescription := description;
     playOnLoad := playOnLoad; data := payload |}.

Definition uploadQuery (name description : option string) : string :=
  "set?name=" +:+ encodeURIComponent (orEmpty name)
  +:+ "&description=" +:+ encodeURIComponent (orEmpty description).

Definition uploadInit (payload : Snapshot) (name description : option string)
    (playOnLoad : option bool) : RequestInit :=
  {| method := "POST";
     mode := "cors";
     referrer := Some "no-referrer";
     referrerPolicy := None;
     credentials := None;
     headers := [("Content-Type", "application/json; charset=utf-8")];
     body := stringifyRemote (getRemoteSnapshot payload name description playOnLoad) |}.

Definition Upload (payload : Snapshot) (name description : option string)
    (playOnLoad : option bool) (serverUrl : string) : list Event :=
  [Fetch (urlCombine serverUrl (uploadQuery name description))
         (uploadInit payload name description playOnLoad)].

(** *** DownloadToFile *)

(** The loop over the registered assets: the index grows by one pair and
    the object by one member per asset. *)
Definition addAsset (acc : list (string * Asset) * list (string * string))
    (e : Asset * File) : list (string * Asset) * list (string * string) :=
  (fst acc ++ [(assetId (fst e), fst e)],
   JsObject.set (snd acc) ("assets/" +:+ assetId (fst e)) (content (snd e))).

Definition zipDataObj (payload : Snapshot) (registered : list (Asset * File))
  : list (string * string) :=
  let json := stringifySnapshot payload in
  let start := [("state.json", json)] in
  let (assets, obj) := fold_left addAsset registered ([], start) in
  if Nat.ltb 0 (length assets)
  then JsObject.set obj "assets.json" (stringifyAssets assets)
  else obj.

(** The members of the archive in the order the writer meets them. *)
Definition archiveMembers (payload : Snapshot) (registered : list (Asset * File))
  : list (string * string) :=
  JsObject.ownEntries (zipDataObj payload registered).

Definition downloadName (name : option string) : string :=
  "mol-star_state_" +:+
  match name with
  | Some n => if String.eqb n "" then getFormattedTime else n
  | None => getFormattedTime
  end.

Definition DownloadToFile (payload : Snapshot) (registered : list (Asset * File))
    (name : option string) (type : string) : list Event :=
  let json := stringifySnapshot payload in
  let name := downloadName name in
  if String.eqb type "json"
  then [Download (name +:+ ".json") "application/json;charset=utf-8" json]
  else [Download (name +:+ ".zip") "application/zip"
                 (zip (archiveMembers payload registered))].

(** *** OpenFile *)

Definition readAsString (f : File) : M string :=
  emit (ReadFromFile f asString) ;;; ret (content f).

Definition readAsZip (f : File) : M (list (string * string)) :=
  emit (ReadFromFile f asZip) ;;;
  match unzip (content f) with
  | Some d => ret d
  | None => throw ZipError
  end.

Definition jsonParseSnapshot (text : string) : M Snapshot :=
  emit (JsonParse text) ;;;
  match parseSnapshot text with
  | Some s => ret s
  | None => throw (SyntaxError text)
  end.

Definition jsonParseAssets (text : string)
  : M (list (option (string * Asset))) :=
  emit (JsonParse text) ;;;
  match parseAssetIndex text with
  | Some l => ret l
  | None => throw (SyntaxError text)
  end.

(** What the last two statements of either branch of the open handler do
    with a state text, spelled out. *)
Definition applyState (stateData : string) : M unit :=
  match parseSnapshot stateData with
  | Some s => ([JsonParse stateData; SetSnapshot s], inr tt)
  | None => ([JsonParse stateData], inl (SyntaxError stateData))
  end.

Definition isSpecialMember (k : string) : bool :=
  String.eqb k "state.json" || String.eqb k "assets.json".

(** The key under which a member is kept: what follows the first slash. *)
Definition assetKey (k : string) : string :=
  substringFrom (indexOf "/" k + 1) k.

(** The callback of [objectForEach(data, ...)]. *)
Definition collectMember (assets : list (string * File)) (e : string * string)
  : list (string * File) :=
  if isSpecialMember (fst e) then assets
  else let name := assetKey (fst e) in
       JsObject.set assets name {| name := name; content := snd e |}.

Definition collectAssets (data : list (string * string)) : list (string * File) :=
  fold_left collectMember (JsObject.ownEntries data) [].

(** The content of the last member, in enumeration order, that is kept
    under [key]. *)
Fixpoint memberFor (key : string) (entries : list (string * string))
  : option string :=
  match entries with
  | [] => None
  | e :: es =>
    match memberFor key es with
    | Some v => Some v
    | None =>
      if negb (isSpecialMember (fst e)) && String.eqb (assetKey (fst e)) key
      then Some (snd e) else None
    end
  end.

(** [for (const [id, asset] of json) ctx.managers.asset.set(asset, assets[id])] *)
Fixpoint registerAssets (assets : list (string * File))
    (json : list (option (string * Asset))) : M unit :=
  match json with
  | [] => ret tt
  | None :: _ => throw TypeError
  | Some (id, asset) :: rest =>
    emit (AssetSet asset (JsObject.get assets id)) ;;;
    registerAssets assets rest
  end.

(** The pairs the loop has destructured when it ends or throws: the
    entries ahead of the first malformed one. *)
Fixpoint destructured (json : list (option (string * Asset)))
  : list (string * Asset) :=
  match json with
  | Some p :: rest => p :: destructured rest
  | _ => []
  end.

Definition allDestructured (json : list (option (string * Asset))) : bool :=
  forallb (fun o => match o with Some _ => true | None => false end) json.

(** [new File([part], ...)]: a missing part is the text of [undefined]. *)
Definition blobText (part : option string) : string := default "undefined" part.

Definition openJson (f : File) : M unit :=
  data <- readAsString f ;;
  snapshot <- jsonParseSnapshot data ;;
  emit (SetSnapshot snapshot).

Definition openArchive (f : File) : M unit :=
  data <- readAsZip f ;;
  let assets := collectAssets data in
  let stateFile := {| name := "state.json";
                      content := blobText (JsObject.get data "state.json") |} in
  stateData <- readAsString stateFile ;;
  (match JsObject.get data "assets.json" with
   | Some index =>
     let file := {| name := "assets.json"; content := index |} in
     text <- readAsString file ;;
     json <- jsonParseAssets text ;;
     registerAssets assets json
   | None => ret tt
   end) ;;;
  snapshot <- jsonParseSnapshot stateData ;;
  emit (SetSnapshot snapshot).

Definition isJsonName (f : File) : bool :=
  endsWith (toLowerCase (name f)) "json".

Definition openFileBody (f : File) : M unit :=
  if isJsonName f then openJson f else openArchive f.

(** The [OpenFile] handler.  The promise of [setSnapshot] is returned, not
    awaited: what happens inside it is not this handler's to catch. *)
Definition OpenFile (f : File) : list Event := tryLog (openFileBody f).

(** *** The state the events act upon *)

Variable Tree : Type.

(** Modelled from the spec: [setSnapshot] rebuilds the committed tree from a
    payload; [set(metadata, binary)] of the asset registry adds the pair to
    the registry's sequence. *)
Variable setSnapshot : Snapshot -> Tree -> Tree.

Record PluginState := mkPlugin {
  committed : Tree;
  registry : list (Asset * option File);
  log : list Error
}.

Definition step (st : PluginState) (ev : Event) : PluginState :=
  match ev with
  | SetSnapshot s =>
    {| committed := setSnapshot s (committed st);
       registry := registry st; log := log st |}
  | AssetSet a b =>
    {| committed := committed st;
       registry := registry st ++ [(a, b)]; log := log st |}
  | LogError e =>
    {| committed := committed st;
       registry := registry st; log := log st ++ [e] |}
  | _ => st
  end.

Definition run (st : PluginState) (tr : list Event) : PluginState :=
  fold_left step tr st.

(** The registrations a trace makes, in order. *)
Definition registeredBy (tr : list Event) : list (Asset * option File) :=
  flat_map (fun ev => match ev with AssetSet a b => [(a, b)] | _ => [] end) tr.

Definition isAssetSet (ev : Event) : bool :=
  match ev with AssetSet _ _ => true | _ => false end.

Definition isSetSnapshot (ev : Event) : bool :=
  match ev with SetSnapshot _ => true | _ => false end.

Definition isLogError (ev : Event) : bool :=
  match ev with LogError _ => true | _ => false end.

(** Events that touch neither the registry, nor the tree, nor the log. *)
Definition quiet (ev : Event) : bool :=
  match ev with
  | ReadFromFile _ _ | JsonParse _ => true
  | _ => false
  end.

(** *** The request as the platform builds it

    The part of the Fetch Standard's [Request] constructor that reads the
    [referrer] member of [init]: the empty string selects [no-referrer]; any
    other string is parsed as a URL against the page ([None]: a parse
    failure; the flag tells whether the parsed URL is kept, or replaced by
    the client's own referrer). *)
Inductive Referrer :=
| NoReferrer
| Client
| ReferrerUrl (u : string).

Definition requestReferrer (parseUrl : string -> option (string * bool))
    (init : RequestInit) : result Referrer :=
  match referrer init with
  | None => Ok Client
  | Some r =>
    if String.eqb r "" then Ok NoReferrer
    else match parseUrl r with
         | None => Throw
         | Some (u, true) => Ok (ReferrerUrl u)
         | Some (_, false) => Ok Client
         end
  end.

End Handlers.

End Snapshots.

(** ** A small codec for the examples

    Texts and archives of a toy format stand in for JSON and ZIP in the
    closed examples: a payload is a text in braces; an asset index is a
    bracketed run of entries [id,kind,assetId,target;]; an archive is [PK]
    followed by members [name|content#]. *)

Module Demo.
Import JsString Snapshots.

Fixpoint splitOn (sep : ascii) (s : string) : list string :=
  match s with
  | EmptyString => [EmptyString]
  | String c s' =>
    if Ascii.eqb c sep then EmptyString :: splitOn sep s'
    else match splitOn sep s' with
         | [] => [String c EmptyString]
         | h :: t => String c h :: t
         end
  end.

Definition stringifyPayload (p : string) : string := p.

Definition parsePayload (text : string) : option string :=
  if String.prefix "{" text && endsWith text "}" then Some text else None.

Definition kindName (k : AssetKind) : string :=
  match k with url => "url" | file => "file" end.

Definition stringifyEntry (e : string * Asset) : string :=
  fst e +:+ "," +:+ kindName (kind (snd e)) +:+ "," +:+ assetId (snd e)
  +:+ "," +:+ target (snd e) +:+ ";".

Definition stringifyIndex (l : list (string * Asset)) : string :=
  "[" +:+ foldr (fun e acc => stringifyEntry e +:+ acc) "]" l.

Definition parseEntry (text : string) : option (string * Asset) :=
  match splitOn "," text with
  | [id; k; aid; tgt] =>
    if String.eqb k "url" then Some (id, mkAsset url aid tgt)
    else if String.eqb k "file" then Some (id, mkAsset file aid tgt)
    else None
  | _ => None
  end.

Definition parseIndex (text : string) : option (list (option (string * Asset))) :=
  match text with
  | String "[" body =>
    match reverse (splitOn ";" body) with
    | "]" :: entries => Some (map parseEntry (reverse entries))
    | _ => None
    end
  | _ => None
  end.

Definition zip (members : list (string * string)) : string :=
  "PK" +:+ foldr (fun m acc => fst m +:+ "|" +:+ snd m +:+ "#" +:+ acc) "" members.

Definition parseMember (text : string) : list (string * string) :=
  match splitOn "|" text with
  | [n; c] => [(n, c)]
  | _ => []
  end.

Definition unzip (bytes : string) : option (list (string * string)) :=
  match bytes with
  | String "P" (String "K" body) => Some (flat_map parseMember (splitOn "#" body))
  | _ => None
  end.

Definition asset1 : Asset := mkAsset file "a1" "1cbs.cif".
Definition asset2 : Asset := mkAsset url "a2" "https://example.org/map.ccp4".

Definition registry2 : list (Asset * File) :=
  [(asset1, mkFile "1cbs.cif" "data_1CBS"); (asset2, mkFile "map.ccp4" "MAP ")].

(** An archive whose index is fine and whose state text is cut short. *)
Definition brokenStateArchive : File :=
  mkFile "session.molx"
    (zip [("state.json", "{"); ("assets/a1", "data_1CBS");
          ("assets.json", stringifyIndex [("a1", asset1)])]).

(** The plugin before the file is opened: the payload stands for its tree,
    nothing is registered or logged. *)
Definition before : PluginState string :=
  mkPlugin string "{tree}" [] [].

(** A model of [setSnapshot]: the payload becomes the committed tree. *)
Definition restore (s : string) (_ : string) : string := s.

(** What [brokenStateArchive] makes the handler do before it fails. *)
Definition brokenStateTrace : list (Event string) :=
  [ReadFromFile string brokenStateArchive asZip;
   ReadFromFile string (mkFile "state.json" "{") asString;
   ReadFromFile string (mkFile "assets.json" (stringifyIndex [("a1", asset1)])) asString;
   JsonParse string (stringifyIndex [("a1", asset1)]);
   AssetSet string asset1 (Some (mkFile "a1" "data_1CBS"));
   JsonParse string "{"].

(** A manager with two stored snapshots. *)
Definition twoSnapshots : Manager string :=
  mkManager string
    [mkEntry string "s1" (Some "first") None 1 "{one}";
     mkEntry string "s2" (Some "second") None 2 "{two}"]
    None.

(** Two behavior objects. *)
Definition oldBehavior : Behaviors.StateObject :=
  Behaviors.mkObject Behaviors.Behavior 1.
Definition newBehavior : Behaviors.StateObject :=
  Behaviors.mkObject Behaviors.Behavior 2.

End Demo.

(** ** More archives for the examples *)

Module Samples.
Import JsString Snapshots Demo.

(** An archive without a [state.json] member. *)
Definition statelessArchive : File :=
  mkFile "session.molx"
    (zip [("assets/a1", "data_1CBS");
          ("assets.json", stringifyIndex [("a1", asset1)])]).

(** An archive whose index lists an asset that has no member. *)
Definition orphanIndexArchive : File :=
  mkFile "session.zip"
    (zip [("state.json", "{tree}");
          ("assets.json", stringifyIndex [("a2", asset2)])]).

End Samples.

(** ** Further commands on the state *)

Module StateCommands.
Import StateTree.

(** The [ToggleVisibility] handler: the flag of the cell of [r] is read
    first (a [TypeError] without a cell), its negation is then given to the
    whole subtree. *)
Definition ToggleVisibility (fuel : nat) (st : State) (r : string)
  : option (result State) :=
  match cells st !! r with
  | None => Some Throw
  | Some c =>
    match setSubtreeVisibility fuel st r (negb (isHidden (cellState c))) with
    | None => None
    | Some st' => Some (Ok st')
    end
  end.

(** Every node is stored under its own reference. *)
Definition keyed (tree : Tree) : Prop :=
  forall k t, transforms tree !! k = Some t -> ref t = k.

(** No root of the tree is flagged as a ghost. *)
Definition plainRoot (tree : Tree) : Prop :=
  forall k t, transforms tree !! k = Some t -> parent t = ref t ->
              isGhost (state t) = false.

(** [bounded], as a test. *)
Fixpoint boundedb (tree : Tree) (h : nat) (t : StateTransform) : bool :=
  match h with
  | O => false
  | S h' =>
    forallb (fun c => match transforms tree !! c with
                      | Some tc => boundedb tree h' tc
                      | None => false
                      end)
            (default [] (children tree !! ref t))
  end.

(** root -> A (hidden) -> B (shown), every node with a cell. *)
Definition mixedState : State :=
  {| tree :=
       {| transforms := list_to_map
            [node "root" "root" plain; node "root" "A" plain; node "A" "B" plain];
          children := list_to_map [("root", ["A"]); ("A", ["B"]); ("B", [])] |};
     cells := list_to_map
       [("root", shown);
        ("A", {| status := ok; cellState := withHidden true plain |});
        ("B", shown)] |}.

End StateCommands.

(** ** The life of behaviors *)

Module BehaviorProtocol.
Import Behaviors.

(** The calls of a run of notifications, in delivery order. *)
Definition deliver (es : list ObjectEvent) : list Call :=
  flat_map SyncBehaviors es.

(** The contract of a behavior, checked along a run of calls: [register]
    only on an instance that is not registered, [unregister] only on one
    that is.  [None]: the contract is broken. *)
Fixpoint protocol (reg : gset nat) (cs : list Call) : option (gset nat) :=
  match cs with
  | [] => Some reg
  | register b _ :: cs' =>
    if decide (b ∈ reg) then None else protocol ({[b]} ∪ reg) cs'
  | unregister b :: cs' =>
    if decide (b ∈ reg) then protocol (reg ∖ {[b]}) cs' else None
  end.

#[global] Instance TypeClass_eq_dec : EqDecision TypeClass.
Proof. solve_decision. Defined.

#[global] Instance StateObject_eq_dec : EqDecision StateObject.
Proof. solve_decision. Defined.

(** [fresh live o]: no cell of [live] holds a behavior with the payload of
    [o]. *)
Definition fresh (live : gmap string (option StateObject)) (o : option StateObject)
  : Prop :=
  isBehavior o = true ->
  map_Forall (fun _ o' => isBehavior o' = true -> payload o' <> payload o) live.

#[global] Instance fresh_dec live o : Decision (fresh live o).
Proof. unfold fresh. apply _. Defined.

(** The notifications a state can emit, replayed on the objects its cells
    hold: a cell is created once, recreated or updated in place while it
    exists, and removed with the object it holds; a behavior instance sits
    in one cell at a time.  [None]: the run is not one a state emits. *)
Fixpoint replay (live : gmap string (option StateObject)) (es : list ObjectEvent)
  : option (gmap string (option StateObject)) :=
  match es with
  | [] => Some live
  | created r obj :: es' =>
    match live !! r with
    | None => if decide (fresh live obj) then replay (<[r := obj]> live) es' else None
    | Some _ => None
    end
  | removed r obj :: es' =>
    if decide (live !! r = Some obj) then replay (base.delete r live) es' else None
  | updated r recreate oldObj obj :: es' =>
    if decide (live !! r = Some oldObj)
    then if decide (fresh (base.delete r live) obj)
         then replay (<[r := obj]> live) es' else None
    else None
  | updated r in_place _ obj :: es' =>
    if decide (live !! r = Some obj) then replay live es' else None
  end.

(** The behaviors held by the cells. *)
Definition held (live : gmap string (option StateObject)) (b : nat) : Prop :=
  exists r o, live !! r = Some o /\ isBehavior o = true /\ payload o = b.

(** No behavior instance sits in two cells. *)
Definition exclusive (live : gmap string (option StateObject)) : Prop :=
  forall r r' o o',
    live !! r = Some o -> live !! r' = Some o' ->
    isBehavior o = true -> isBehavior o' = true ->
    payload o = payload o' -> r = r'.

(** The registered instances are those the cells hold, each in one cell. *)
Definition synced (live : gmap string (option StateObject)) (reg : gset nat) : Prop :=
  (forall b, b ∈ reg <-> held live b) /\ exclusive live.

Definition camera : option StateObject := Some (mkObject Behavior 7).
Definition labels : option StateObject := Some (mkObject Behavior 8).
Definition labels' : option StateObject := Some (mkObject Behavior 9).
Definition model : option StateObject := Some (mkObject Data 3).

(** A run with two behaviors and a data object. *)
Definition sampleRun : list ObjectEvent :=
  [created "c" camera; created "m" model; created "l" labels;
   updated "m" in_place None model; updated "l" recreate labels labels';
   removed "c" camera; removed "l" labels'].

End BehaviorProtocol.

(** ** Lines for the bonds within a unit *)

Module BondLines.

(** An element of a numeric array, [undefined] out of range. *)
Definition at_ (arr : list Z) (i : option Z) : option Z :=
  match i with
  | Some i => if (i <? 0)%Z then None else arr !! Z.to_nat i
  | None => None
  end.

(** [x > y] on numbers that may be [undefined]. *)
Definition gt (x y : option Z) : bool :=
  match x, y with
  | Some x, Some y => (y <? x)%Z
  | _, _ => false
  end.

(** [x !== y] *)
Definition neq (x y : option Z) : bool := negb (bool_decide (x = y)).

Definition succ (x : option Z) : option Z := (fun v => (v + 1)%Z) <$> x.

(** The bonds of a unit: an adjacency graph in compressed rows, with the
    order and the flags of each edge. *)
Record Bonds := mkBonds {
  edgeCount : Z;
  a : list Z;
  b : list Z;
  offset : list Z;
  order : list Z;
  flags : list Z
}.

(** [map.get(i)] on a map keyed by element indices. *)
Definition ringsOf (rings : gmap Z (list Z)) (i : option Z) : option (list Z) :=
  match i with
  | Some i => rings !! i
  | None => None
  end.

Inductive LinkStyle := Solid | Dashed | Double | Triple | Aromatic | MirroredAromatic.

Module Flag.
Inductive t := MetallicCoordination | HydrogenBond | Aromatic.
End Flag.

Section Visual.

(** [arrayIntersectionSize] and [BondType.is] are defined elsewhere. *)
Variable arrayIntersectionSize : list Z -> list Z -> Z.
Variable isBondType : option Z -> Flag.t -> bool.

(** [offset[aI + 1] - offset[aI] === 1] *)
Definition single (g : Bonds) (aI : option Z) : bool :=
  match at_ (offset g) (succ aI), at_ (offset g) aI with
  | Some hi, Some lo => (hi - lo =? 1)%Z
  | _, _ => false
  end.

(** The two swaps at the head of [referencePosition]. *)
Definition orient (g : Bonds) (edgeIndex : Z) : option Z * option Z :=
  let aI := at_ (a g) (Some edgeIndex) in
  let bI := at_ (b g) (Some edgeIndex) in
  let (aI, bI) := if gt aI bI then (bI, aI) else (aI, bI) in
  if single g aI then (bI, aI) else (aI, bI).

(** The values [i] takes in [for (i = offset[aI]; i < offset[aI + 1]; ++i)]. *)
Definition range (g : Bonds) (aI : option Z) : list Z :=
  match at_ (offset g) aI, at_ (offset g) (succ aI) with
  | Some lo, Some hi => seqZ lo (hi - lo)
  | _, _ => []
  end.

(** The body of the loop, run over the remaining values of [i] with the
    current [maxSize] and the atom whose position [vRef] holds: the result
    is that atom, or [None] for [null]. *)
Fixpoint scan (g : Bonds) (rings : gmap Z (list Z)) (aI bI : option Z)
    (aR : option (list Z)) (ids : list Z) (maxSize : Z)
    (vRef : option (option Z)) : option (option Z) :=
  match ids with
  | [] => if (0 <? maxSize)%Z then vRef else None
  | i :: rest =>
    let _bI := at_ (b g) (Some i) in
    if neq _bI bI && neq _bI aI then
      match aR with
      | Some ar =>
        match ringsOf rings _bI with
        | None => scan g rings aI bI aR rest maxSize vRef
        | Some br =>
          let size := arrayIntersectionSize ar br in
          if (maxSize <? size)%Z
          then scan g rings aI bI aR rest size (Some _bI)
          else scan g rings aI bI aR rest maxSize vRef
        end
      | None => Some _bI
      end
    else scan g rings aI bI aR rest maxSize vRef
  end.

(** [referencePosition(edgeIndex)]: the neighbour whose position is
    returned, [None] when [null] is. *)
Definition referencePosition (g : Bonds) (elementRingIndices : gmap Z (list Z))
    (edgeIndex : Z) : option (option Z) :=
  let (aI, bI) := orient g edgeIndex in
  let aR := ringsOf elementRingIndices aI in
  scan g elementRingIndices aI bI aR (range g aI) 0 None.

(** The neighbours the loop accepts: neither end of the bond. *)
Definition eligible (aI bI : option Z) (c : option Z) : bool :=
  neq c bI && neq c aI.

Definition neighbours (g : Bonds) (aI : option Z) : list (option Z) :=
  map (fun i => at_ (b g) (Some i)) (range g aI).

(** The number of rings a neighbour shares with the rings [ar]. *)
Definition shared (rings : gmap Z (list Z)) (ar : list Z) (c : option Z)
  : option Z :=
  arrayIntersectionSize ar <$> ringsOf rings c.

Definition dashedKind (f : option Z) : bool :=
  isBondType f Flag.MetallicCoordination || isBondType f Flag.HydrogenBond.

Definition arCount (g : Bonds) (elementAromaticRingIndices : gmap Z (list Z))
    (edgeIndex : Z) : Z :=
  match ringsOf elementAromaticRingIndices (at_ (a g) (Some edgeIndex)),
        ringsOf elementAromaticRingIndices (at_ (b g) (Some edgeIndex)) with
  | Some aR, Some bR => arrayIntersectionSize aR bR
  | _, _ => 0%Z
  end.

(** [style(edgeIndex)] *)
Definition style (g : Bonds) (elementAromaticRingIndices : gmap Z (list Z))
    (aromaticBonds : bool) (edgeIndex : Z) : LinkStyle :=
  let o := at_ (order g) (Some edgeIndex) in
  let f := at_ (flags g) (Some edgeIndex) in
  let plainStyle := if bool_decide (o = Some 2%Z) then Double else Solid in
  if isBondType f Flag.MetallicCoordination || isBondType f Flag.HydrogenBond
  then Dashed
  else if bool_decide (o = Some 3%Z) then Triple
  else if aromaticBonds then
         let n := arCount g elementAromaticRingIndices edgeIndex in
         if negb (n =? 0)%Z || isBondType f Flag.Aromatic
         then if (n =? 2)%Z then MirroredAromatic else Aromatic
         else plainStyle
       else plainStyle.

End Visual.

(** *** What an update has to redo *)

Section UpdateState.

(** Numbers compared with [!==], arrays with [arrayEqual], bond graphs with
    [IntAdjacencyGraph.areEqual]; what else the update state holds is
    [Rest]. *)
Variable Num : Type.
Variable strictNeq : Num -> Num -> bool.
Variable Types : Type.
Variable arrayEqual : Types -> Types -> bool.
Variable Graph : Type.
Variable areEqual : Graph -> Graph -> bool.
Variable Rest : Type.

Record Props := mkProps {
  sizeFactor : Num;
  linkScale : Num;
  linkSpacing : Num;
  dashCount : Num;
  ignoreHydrogens : bool;
  includeTypes : Types;
  excludeTypes : Types;
  aromaticBonds : bool
}.

Record VisualUpdateState := mkUpdate {
  updateTransform : bool;
  updateColor : bool;
  updateSize : bool;
  createGeometry : bool;
  rest : Rest
}.

(** A unit is atomic, with its bonds, or coarse. *)
Inductive Unit := Atomic (bonds : Graph) | Coarse.

Definition propsChanged (newProps currentProps : Props) : bool :=
  strictNeq (sizeFactor newProps) (sizeFactor currentProps)
  || strictNeq (linkScale newProps) (linkScale currentProps)
  || strictNeq (linkSpacing newProps) (linkSpacing currentProps)
  || strictNeq (dashCount newProps) (dashCount currentProps)
  || negb (eqb (ignoreHydrogens newProps) (ignoreHydrogens currentProps))
  || negb (arrayEqual (includeTypes newProps) (includeTypes currentProps))
  || negb (arrayEqual (excludeTypes newProps) (excludeTypes currentProps))
  || negb (eqb (aromaticBonds newProps) (aromaticBonds currentProps)).

(** Both units are atomic and their bond graphs differ. *)
Definition bondsChanged (newUnit currentUnit : Unit) : bool :=
  match newUnit, currentUnit with
  | Atomic newBonds, Atomic currentBonds => negb (areEqual newBonds currentBonds)
  | _, _ => false
  end.

(** [setUpdateState], on the first unit of the new and of the current
    group (a group has at least one unit). *)
Definition setUpdateState (state : VisualUpdateState)
    (newProps currentProps : Props) (newUnit currentUnit : Unit)
  : VisualUpdateState :=
  let state1 :=
    {| updateTransform := updateTransform state;
       updateColor := updateColor state;
       updateSize := updateSize state;
       createGeometry := propsChanged newProps currentProps;
       rest := rest state |} in
  match newUnit, currentUnit with
  | Atomic newBonds, Atomic currentBonds =>
    if negb (areEqual newBonds currentBonds)
    then {| updateTransform := true; updateColor := true; updateSize := true;
            createGeometry := true; rest := rest state1 |}
    else state1
  | _, _ => state1
  end.

End UpdateState.

(** A sample of [arrayIntersectionSize]: how many elements of the first
    array are found in the second. *)
Definition countShared (xs ys : list Z) : Z :=
  Z.of_nat (length (filter (fun x => x ∈ ys) xs)).

(** A chain of three atoms 0 - 1 - 2. *)
Definition chain3 : Bonds :=
  {| edgeCount := 2; a := [0; 1; 1; 2]%Z; b := [1; 0; 2; 1]%Z;
     offset := [0; 1; 3; 4]%Z; order := [1; 1; 1; 1]%Z; flags := [1; 1; 1; 1]%Z |}.

End BondLines.

(** * Theorems *)

Import StateTree.

(** ** Removal with ghost ancestors *)

Lemma ghostWalk_S fuel tree curr :
  ghostWalk (S fuel) tree curr =
  if String.eqb (parent curr) (ref curr) then Some (Ok (ref curr))
  else match children tree !! parent curr with
       | None => Some Throw
       | Some cs =>
         if Nat.ltb 1 (length cs) then Some (Ok (ref curr))
         else match transforms tree !! parent curr with
              | None => Some Throw
              | Some p =>
                if negb (isGhost (state p)) then Some (Ok (ref curr))
                else ghostWalk fuel tree p
              end
       end.
Proof. reflexivity. Qed.

Lemma ghostWalk_linked tree t n :
  linked tree t n ->
  forall fuel, n < fuel ->
    exists t', ghostWalk fuel tree t = Some (Ok (ref t'))
               /\ ghostClimb tree t t' /\ ghostStop tree t'.
Proof.
  induction 1 as [t Hroot | t p cs n Hne Hp Hcs Hin Hl IH]; intros fuel Hfuel.
  - destruct fuel as [|fuel]; [lia|]. exists t.
    rewrite ghostWalk_S, Hroot, String.eqb_refl.
    repeat split; [constructor | by left].
  - destruct fuel as [|fuel]; [lia|]. rewrite ghostWalk_S.
    apply String.eqb_neq in Hne as Hneb. rewrite Hneb, Hcs.
    destruct (Nat.ltb_spec 1 (length cs)) as [Hmany | Hone].
    + exists t. repeat split; [constructor | right; left; eauto].
    + rewrite Hp. destruct (isGhost (state p)) eqn:Hg; cbn.
      * destruct (IH fuel ltac:(lia)) as (t' & Hw & Hc & Hs).
        exists t'. repeat split; [done | | done].
        apply climb_up with p; [|done].
        repeat split; [done | | done | done].
        exists cs. split; [done|].
        destruct cs; [by apply elem_of_nil in Hin | cbn in *; lia].
      * exists t. repeat split; [constructor | right; right; eauto].
Qed.

(** C1 (amended).  Removing [r] with the skip-ghost-ancestors option walks
    upward from [r] while the current node is not the tree root, its parent
    has exactly one child and its parent is flagged [isGhost], and removes
    the node reached; on the chain root -> G1 -> G2 -> L with ghosts G1 and
    G2 under a plain root, the node deleted is G1 and only the root is
    left. *)
Theorem removeParentGhosts_cascade :
  (forall tree r L n fuel,
      transforms tree !! r = Some L -> ref L = r -> linked tree L n -> n < fuel ->
      exists t, removeTarget fuel tree r true = Some (Ok (ref t))
                /\ ghostClimb tree L t /\ ghostStop tree t)
  /\ removeTarget 4 chainTree "L" true = Some (Ok "G1")
  /\ RemoveObject 4 chainTree "L" true = Some (Ok rootOnly).
Proof.
  split; [| split; reflexivity].
  intros tree r L n fuel HL Hr Hl Hfuel. unfold removeTarget. rewrite HL.
  destruct (String.eqb_spec (parent L) r) as [Heq | Hne].
  - exists L. rewrite Hr. repeat split; [constructor | left; congruence].
  - by apply ghostWalk_linked with n.
Qed.

(** The handler stops one node too high for the specification's wording
    when the root itself is a ghost with a single child. *)
Lemma removeParentGhosts_ghost_root :
  specRemoveTarget 2 ghostRootTree "L" = Some (Ok "L")
  /\ removeTarget 2 ghostRootTree "L" true = Some (Ok "root")
  /\ forall fuel, removeTarget fuel ghostRootTree "L" true <> Some (Ok "L").
Proof.
  split; [reflexivity | split; [reflexivity |]].
  intros [|[|fuel]]; vm_compute; discriminate.
Qed.

Lemma removeParentGhosts_cascade_chain :
  exists t, removeTarget 4 chainTree "L" true = Some (Ok (ref t))
            /\ ghostClimb chainTree {| parent := "G2"; ref := "L"; state := plain |} t
            /\ ghostStop chainTree t.
Proof.
  apply (proj1 removeParentGhosts_cascade chainTree "L"
           {| parent := "G2"; ref := "L"; state := plain |} 3 4);
    [reflexivity | reflexivity | | lia].
  eapply linked_step; [discriminate | reflexivity | reflexivity | apply list_elem_of_here |].
  eapply linked_step; [discriminate | reflexivity | reflexivity | apply list_elem_of_here |].
  eapply linked_step; [discriminate | reflexivity | reflexivity | apply list_elem_of_here |].
  apply linked_root. reflexivity.
Defined.

(** ** Visibility of a subtree *)

Section PreOrder.
Variable tree : Tree.

Lemma visitChildren_shift (visit : StateTransform -> list string -> option (list string)) :
  (forall t acc, visit t acc = (acc ++.) <$> visit t []) ->
  forall cs acc,
    visitChildren visit tree cs acc = (acc ++.) <$> visitChildren visit tree cs [].
Proof.
  intros Hv cs. induction cs as [|c cs IH]; intros acc; cbn.
  - by rewrite app_nil_r.
  - destruct (transforms tree !! c) as [t|]; [|done].
    rewrite (Hv t acc). destruct (visit t []) as [rt|]; [|done]. cbn.
    rewrite (IH (acc ++ rt)), (IH rt).
    destruct (visitChildren visit tree cs []) as [x|]; [|done]. cbn.
    by rewrite List.app_assoc.
Qed.

Lemma doPreOrder_shift fuel t acc :
  doPreOrder fuel tree t acc collect = (acc ++.) <$> preOrderRefs fuel tree t.
Proof.
  unfold preOrderRefs.
  revert t acc. induction fuel as [|n IH]; intros t acc; [done|]. cbn.
  rewrite (visitChildren_shift _ IH _ (collect t tree acc)).
  rewrite (visitChildren_shift _ IH _ (collect t tree [])).
  destruct (visitChildren _ tree _ []) as [x|]; [|done]. cbn.
  unfold collect. by rewrite <- !List.app_assoc.
Qed.

Lemma visitChildren_collect n cs x :
  visitChildren (fun t acc => doPreOrder n tree t acc collect) tree cs [] = Some x
  <-> exists rss, childLists tree n cs rss /\ x = concat rss.
Proof.
  revert x. induction cs as [|c cs IH]; intros x; cbn.
  - split.
    + intros [= <-]. exists []. split; [constructor | done].
    + intros (rss & H & ->). by inversion H.
  - split.
    + destruct (transforms tree !! c) as [t|] eqn:Ht; [|done].
      rewrite doPreOrder_shift. destruct (preOrderRefs n tree t) as [rt|] eqn:Hrt; [|done].
      cbn. rewrite visitChildren_shift by (intros; by rewrite !doPreOrder_shift, <- option_fmap_compose).
      destruct (visitChildren _ tree cs []) as [y|] eqn:Hy; [|done]. cbn. intros [= <-].
      destruct (proj1 (IH y) eq_refl) as (rss & Hrss & ->).
      exists (rt :: rss). split; [constructor; eauto | done].
    + intros (rss & H & ->). inversion H as [|? rt ? rss' (tc & Htc & Hrt) Hrest]; subst.
      rewrite Htc, doPreOrder_shift, Hrt. cbn.
      rewrite visitChildren_shift by (intros; by rewrite !doPreOrder_shift, <- option_fmap_compose).
      assert (Hy : visitChildren (fun t acc => doPreOrder n tree t acc collect) tree cs []
                   = Some (concat rss')) by (apply IH; eauto).
      by rewrite Hy.
Qed.

Lemma collect_shift n t acc :
  doPreOrder n tree t acc collect = (acc ++.) <$> doPreOrder n tree t [] collect.
Proof.
  rewrite !doPreOrder_shift. by destruct (preOrderRefs n tree t).
Qed.

(** The pre-order equation: a node first, then its children's subtrees from
    left to right. *)
Lemma preOrderRefs_S n t refs :
  preOrderRefs (S n) tree t = Some refs
  <-> exists rss, childLists tree n (default [] (children tree !! ref t)) rss
                  /\ refs = ref t :: concat rss.
Proof.
  unfold preOrderRefs at 1. cbn.
  rewrite visitChildren_shift by (intros; by rewrite !doPreOrder_shift, <- option_fmap_compose).
  split.
  - destruct (visitChildren _ tree _ []) as [x|] eqn:Hx; [|done]. cbn. intros [= <-].
    apply visitChildren_collect in Hx as (rss & H & ->). eauto.
  - intros (rss & H & ->).
    assert (Hx : visitChildren (fun t acc => doPreOrder n tree t acc collect) tree
                   (default [] (children tree !! ref t)) [] = Some (concat rss))
      by (apply visitChildren_collect; eauto).
    by rewrite Hx.
Qed.

End PreOrder.

Section Visibility.
Variable tree : Tree.

(** A visitor that only looks at the reference acts as a left fold over the
    pre-order listing. *)
Lemma visitChildren_fold {S : Type} (g : S -> string -> S) n :
  (forall t s, doPreOrder n tree t s (fun t _ s => g s (ref t))
               = foldl g s <$> preOrderRefs n tree t) ->
  forall cs s,
    visitChildren (fun t acc => doPreOrder n tree t acc (fun t _ s => g s (ref t))) tree cs s
    = foldl g s <$> visitChildren (fun t acc => doPreOrder n tree t acc collect) tree cs [].
Proof.
  intros Hn cs. induction cs as [|c cs IH]; intros s; cbn; [done|].
  destruct (transforms tree !! c) as [t|]; [|done].
  rewrite Hn, doPreOrder_shift.
  destruct (preOrderRefs n tree t) as [rt|]; [|done]. cbn.
  rewrite IH.
  rewrite (visitChildren_shift tree _ (collect_shift tree n) cs rt).
  destruct (visitChildren _ tree cs []) as [x|]; [|done]. cbn.
  by rewrite foldl_app.
Qed.

Lemma doPreOrder_fold {S : Type} (g : S -> string -> S) fuel t s :
  doPreOrder fuel tree t s (fun t _ s => g s (ref t))
  = foldl g s <$> preOrderRefs fuel tree t.
Proof.
  revert t s. induction fuel as [|n IH]; intros t s; [done|].
  cbn. rewrite (visitChildren_fold g n IH).
  unfold preOrderRefs. cbn.
  rewrite (visitChildren_shift tree _ (collect_shift tree n) _ (collect t tree [])).
  destruct (visitChildren _ tree _ []) as [x|]; [|done]. done.
Qed.


(** Enough fuel: a subtree of height below [h] is listed with fuel [h]. *)
Lemma preOrderRefs_total h t :
  bounded tree h t -> is_Some (preOrderRefs h tree t).
Proof.
  revert t. induction h as [|h IH]; intros t Hb; [done|]. cbn in Hb.
  assert (exists rss, childLists tree h (default [] (children tree !! ref t)) rss)
    as [rss Hrss].
  { induction (default [] (children tree !! ref t)) as [|c cs IHcs].
    - exists []. constructor.
    - destruct (Hb c) as (tc & Htc & Hbc); [apply list_elem_of_here|].
      destruct (IH tc Hbc) as [rs Hrs].
      destruct IHcs as [rss Hrss].
      { intros c' Hc'. apply Hb. by apply list_elem_of_further. }
      exists (rs :: rss). constructor; eauto. }
  exists (ref t :: concat rss). apply preOrderRefs_S. eauto.
Qed.

Lemma descends_listed t d :
  descends tree t d ->
  forall fuel refs, preOrderRefs fuel tree t = Some refs -> ref d ∈ refs.
Proof.
  induction 1 as [t | t c tc d Hc Htc Hd IH]; intros fuel refs Hrefs.
  - destruct fuel as [|n]; [done|].
    apply preOrderRefs_S in Hrefs as (rss & _ & ->). apply list_elem_of_here.
  - destruct fuel as [|n]; [done|].
    apply preOrderRefs_S in Hrefs as (rss & Hrss & ->).
    apply list_elem_of_further. unfold childLists in Hrss.
    revert Hc. induction Hrss as [|c' rs cs rss' (tc' & Htc' & Hrs) Hrest IHrest]; intros Hc.
    + by apply elem_of_nil in Hc.
    + cbn. apply elem_of_app. apply elem_of_cons in Hc as [-> | Hc].
      * left. rewrite Htc in Htc'. injection Htc' as <-. by eapply IH.
      * right. by apply IHrest.
Qed.

Lemma childLists_elem n cs rss r :
  childLists tree n cs rss -> r ∈ concat rss ->
  exists c tc rs, c ∈ cs /\ transforms tree !! c = Some tc
                  /\ preOrderRefs n tree tc = Some rs /\ r ∈ rs.
Proof.
  induction 1 as [|c rs cs' rss' (tc & Htc & Hrs) Hrest IHrest]; cbn; intros Hr.
  - by apply elem_of_nil in Hr.
  - apply elem_of_app in Hr as [Hr | Hr].
    + exists c, tc, rs. repeat split; [apply list_elem_of_here | done..].
    + destruct (IHrest Hr) as (c' & tc' & rs' & Hc' & H').
      exists c', tc', rs'. split; [by apply list_elem_of_further | done].
Qed.

Lemma listed_descends fuel :
  forall t refs r, preOrderRefs fuel tree t = Some refs -> r ∈ refs ->
    exists d, descends tree t d /\ ref d = r.
Proof.
  induction fuel as [|n IH]; intros t refs r Hrefs Hr; [done|].
  apply preOrderRefs_S in Hrefs as (rss & Hrss & ->).
  apply elem_of_cons in Hr as [-> | Hr].
  - exists t. split; [constructor | done].
  - destruct (childLists_elem _ _ _ _ Hrss Hr) as (c & tc & rs & Hc & Htc & Hrs & Hin).
    destruct (IH tc rs r Hrs Hin) as (d & Hd & <-).
    exists d. split; [|done]. by eapply descends_child.
Qed.

Lemma setHidden_idemp v c : setHidden v (setHidden v c) = setHidden v c.
Proof. done. Qed.

Lemma updateCellState_lookup (cs : gmap string Cell) a v r :
  updateCellState cs a v !! r
  = if decide (a = r) then setHidden v <$> cs !! r else cs !! r.
Proof.
  unfold updateCellState. destruct (cs !! a) as [c|] eqn:Ha.
  - rewrite lookup_insert. destruct (decide (a = r)) as [<-|]; [by rewrite Ha | done].
  - destruct (decide (a = r)) as [<-|]; [by rewrite Ha | done].
Qed.

Lemma hideAll_lookup v refs r : forall cs : gmap string Cell,
  foldl (fun cs r => updateCellState cs r v) cs refs !! r
  = if decide (r ∈ refs) then setHidden v <$> cs !! r else cs !! r.
Proof.
  induction refs as [|a refs IH]; intros cs; cbn.
  - destruct (decide (r ∈ [])) as [H|]; [by apply elem_of_nil in H | done].
  - rewrite IH, updateCellState_lookup.
    destruct (decide (r ∈ a :: refs)) as [Hin'|Hin'].
    + destruct (decide (r ∈ refs)) as [Hin|Hin], (decide (a = r)) as [Heq|Hne];
        try (by destruct (cs !! r)).
      apply elem_of_cons in Hin' as [Hra|Hrr]; [by subst | done].
    + rewrite decide_False by (intros H; apply Hin'; by apply list_elem_of_further).
      rewrite decide_False; [done|].
      intros ->. apply Hin'. apply list_elem_of_here.
Qed.

Lemma hideAll_idemp v refs (cs : gmap string Cell) :
  let hideAll := foldl (fun cs r => updateCellState cs r v) in
  hideAll (hideAll cs refs) refs = hideAll cs refs.
Proof.
  cbn. apply map_eq. intros r. rewrite !hideAll_lookup.
  destruct (decide (r ∈ refs)); [|done]. by destruct (cs !! r).
Qed.

End Visibility.

(** C3.  When the subtree of [root] has finite height, [setSubtreeVisibility]
    returns with enough fuel; it is one pre-order pass (the root first, then
    the subtrees of its children from left to right) that applies the cell
    update to each reference in turn; afterwards the cell of the root and of
    every descendant has [isHidden] equal to the value given, none has the
    opposite value, the other cells are as before, and a second run with the
    same arguments changes nothing. *)
Theorem setSubtreeVisibility_preorder st root t value h :
  transforms (tree st) !! root = Some t ->
  bounded (tree st) h t ->
  exists st' refs rss,
    setSubtreeVisibility h st root value = Some st'
    /\ tree st' = tree st
    /\ preOrderRefs h (tree st) t = Some refs
    /\ childLists (tree st) (pred h) (default [] (children (tree st) !! ref t)) rss
    /\ refs = ref t :: concat rss
    /\ cells st' = foldl (fun cs r => updateCellState cs r value) (cells st) refs
    /\ (forall d c, descends (tree st) t d -> cells st !! ref d = Some c ->
          cells st' !! ref d = Some (setHidden value c))
    /\ (forall d c', descends (tree st) t d -> cells st' !! ref d = Some c' ->
          isHidden (cellState c') = value)
    /\ (forall r, (forall d, descends (tree st) t d -> ref d <> r) ->
          cells st' !! r = cells st !! r)
    /\ setSubtreeVisibility h st' root value = Some st'.
Proof.
  intros Ht Hb.
  destruct (preOrderRefs_total _ _ _ Hb) as [refs Hrefs].
  destruct h as [|n]; [done|].
  pose proof Hrefs as Hrefs'.
  apply preOrderRefs_S in Hrefs' as (rss & Hrss & Heq).
  set (cs' := foldl (fun cs r => updateCellState cs r value) (cells st) refs).
  assert (Hrun : forall cs, doPreOrder (S n) (tree st) t cs (setVisibilityVisitor value)
                            = Some (foldl (fun cs r => updateCellState cs r value) cs refs)).
  { intros cs. unfold setVisibilityVisitor.
    rewrite (doPreOrder_fold (tree st) (fun cs r => updateCellState cs r value)).
    by rewrite Hrefs. }
  exists {| tree := tree st; cells := cs' |}, refs, rss.
  unfold setSubtreeVisibility. cbn [tree cells]. rewrite Ht, !Hrun.
  repeat split; try done.
  - intros d c Hd Hc. subst cs'. rewrite hideAll_lookup.
    rewrite decide_True by (by eapply descends_listed). by rewrite Hc.
  - intros d c' Hd. subst cs'. rewrite hideAll_lookup.
    rewrite decide_True by (by eapply descends_listed).
    destruct (cells st !! ref d); [|done]. by intros [= <-].
  - intros r Hr. subst cs'. rewrite hideAll_lookup.
    rewrite decide_False; [done|]. intros Hin.
    destruct (listed_descends _ _ _ _ _ Hrefs Hin) as (d & Hd & Hdr).
    by apply (Hr d).
  - subst cs'. by rewrite hideAll_idemp.
Qed.

Lemma setSubtreeVisibility_chain :
  exists st' refs rss,
    setSubtreeVisibility 3 chainState "G1" true = Some st'
    /\ tree st' = tree chainState
    /\ preOrderRefs 3 (tree chainState) {| parent := "root"; ref := "G1"; state := ghost |}
       = Some refs
    /\ childLists (tree chainState) 2 ["G2"] rss
    /\ refs = "G1" :: concat rss
    /\ cells st' = foldl (fun cs r => updateCellState cs r true) (cells chainState) refs
    /\ (forall d c, descends (tree chainState) {| parent := "root"; ref := "G1"; state := ghost |} d ->
          cells chainState !! ref d = Some c ->
          cells st' !! ref d = Some (setHidden true c))
    /\ (forall d c', descends (tree chainState) {| parent := "root"; ref := "G1"; state := ghost |} d ->
          cells st' !! ref d = Some c' -> isHidden (cellState c') = true)
    /\ (forall r, (forall d, descends (tree chainState) {| parent := "root"; ref := "G1"; state := ghost |} d ->
                     ref d <> r) ->
          cells st' !! r = cells chainState !! r)
    /\ setSubtreeVisibility 3 st' "G1" true = Some st'.
Proof.
  apply (setSubtreeVisibility_preorder chainState "G1"
           {| parent := "root"; ref := "G1"; state := ghost |} true 3).
  - reflexivity.
  - intros c Hc. apply list_elem_of_singleton in Hc as ->.
    eexists. split; [reflexivity|].
    intros c Hc. apply list_elem_of_singleton in Hc as ->.
    eexists. split; [reflexivity|].
    intros c Hc. by apply elem_of_nil in Hc.
Defined.

(** ** Behavior synchronisation *)

Section BehaviorFacts.
Import Behaviors.

Lemma onUpdated_order ref action oldObj obj i j b r b' :
  onUpdated ref action oldObj obj !! i = Some (register b r) ->
  onUpdated ref action oldObj obj !! j = Some (unregister b') ->
  j < i.
Proof.
  destruct action; cbn; [|done].
  destruct (isBehavior oldObj), (isBehavior obj); cbn;
    destruct i as [|[|i]], j as [|[|j]]; cbn; try done; lia.
Qed.

(** C2.  A [created] notification registers the behavior of a behavior-typed
    object against the notification's reference; a [removed] one
    unregisters it; an [updated] one with action [recreate] unregisters the
    old object's behavior, when it is one, and then registers the new
    object's, when it is one, never the other way round; an object that is
    not a behavior, and an in-place update, give rise to no call. *)
Theorem SyncBehaviors_lifecycle (ref : string) (oldObj obj : option StateObject) :
  SyncBehaviors (created ref obj)
    = (if isBehavior obj then [register (payload obj) ref] else [])
  /\ SyncBehaviors (removed ref obj)
    = (if isBehavior obj then [unregister (payload obj)] else [])
  /\ SyncBehaviors (updated ref recreate oldObj obj)
    = (if isBehavior oldObj then [unregister (payload oldObj)] else [])
      ++ (if isBehavior obj then [register (payload obj) ref] else [])
  /\ SyncBehaviors (updated ref in_place oldObj obj) = []
  /\ (forall e i j b r b',
        SyncBehaviors e !! i = Some (register b r) ->
        SyncBehaviors e !! j = Some (unregister b') -> j < i)
  /\ (forall e c, c ∈ SyncBehaviors e ->
        match e, c with
        | created r o, register b r' => isBehavior o = true /\ b = payload o /\ r' = r
        | removed _ o, unregister b => isBehavior o = true /\ b = payload o
        | updated r recreate o _, unregister b => isBehavior o = true /\ b = payload o
        | updated r recreate _ o, register b r' => isBehavior o = true /\ b = payload o /\ r' = r
        | _, _ => False
        end).
Proof.
  repeat split.
  - cbn. unfold onCreated. by destruct (isBehavior obj).
  - cbn. unfold onRemoved. by destruct (isBehavior obj).
  - intros [r o | r o | r a o o'] i j b r' b'; cbn.
    + unfold onCreated. destruct (isBehavior o); cbn; [|done].
      destruct i, j; cbn; done.
    + unfold onRemoved. destruct (isBehavior o); cbn; [|done].
      destruct i; cbn; done.
    + apply onUpdated_order.
  - intros [r o | r o | r a o o'] c; cbn.
    + unfold onCreated. destruct (isBehavior o) eqn:Ho; cbn; [|by intros ?%elem_of_nil].
      by intros ->%list_elem_of_singleton.
    + unfold onRemoved. destruct (isBehavior o) eqn:Ho; cbn; [|by intros ?%elem_of_nil].
      by intros ->%list_elem_of_singleton.
    + destruct a; cbn; [|by intros ?%elem_of_nil].
      destruct (isBehavior o) eqn:Ho, (isBehavior o') eqn:Ho'; cbn;
        rewrite ?elem_of_cons, ?elem_of_nil; intros H;
        repeat match goal with H : _ \/ _ |- _ => destruct H as [H|H] end;
        subst; done.
Qed.

End BehaviorFacts.

(** ** JavaScript strings and objects *)

Section StringFacts.
Import JsString.

Lemma length_append (a b : string) :
  String.length (a +:+ b) = String.length a + String.length b.
Proof. induction a as [|c a IH]; simpl; [done | by rewrite IH]. Qed.

Lemma dropStr_append (a b : string) : dropStr (String.length a) (a +:+ b) = b.
Proof. induction a as [|c a IH]; simpl; [by destruct b | done]. Qed.

Lemma dropStr_split n (s : string) :
  n <= String.length s ->
  exists p, s = p +:+ dropStr n s /\ String.length p = n.
Proof.
  revert s. induction n as [|n IH]; intros s Hn.
  - exists EmptyString. by destruct s.
  - destruct s as [|c s]; simpl in *; [lia|].
    destruct (IH s ltac:(lia)) as (p & Hp & Hlen).
    exists (String c p). split; [|simpl; by rewrite Hlen].
    change (String c s = String c (p +:+ dropStr n s)). congruence.
Qed.

(** [endsWith] holds exactly of the strings that have the search string as
    a suffix. *)
Lemma endsWith_suffix (s search : string) :
  endsWith s search = true <-> exists p, s = p +:+ search.
Proof.
  unfold endsWith. split.
  - destruct (Nat.ltb_spec (String.length s) (String.length search)) as [|Hle]; [done|].
    intros Heq%String.eqb_eq.
    destruct (dropStr_split (String.length s - String.length search) s ltac:(lia))
      as (p & Hp & _).
    exists p. by rewrite Heq in Hp.
  - intros [p ->]. rewrite length_append.
    destruct (Nat.ltb_spec (String.length p + String.length search) (String.length search));
      [lia|].
    replace (String.length p + String.length search - String.length search)
      with (String.length p) by lia.
    rewrite dropStr_append. apply String.eqb_refl.
Qed.

Lemma toLowerCase_append (a b : string) :
  toLowerCase (a +:+ b) = toLowerCase a +:+ toLowerCase b.
Proof. induction a as [|c a IH]; simpl; [done | by rewrite IH]. Qed.

Lemma indexOf_ge c (s : string) : (-1 <= indexOf c s)%Z.
Proof.
  induction s as [|d s IH]; simpl; [lia|].
  destruct (Ascii.eqb d c); [lia|]. destruct (indexOf c s); lia.
Qed.

Lemma classic_in (c : ascii) (s : string) :
  In c (list_ascii_of_string s) \/ ~ In c (list_ascii_of_string s).
Proof.
  destruct (in_dec ascii_dec c (list_ascii_of_string s)); [by left | by right].
Qed.

Lemma indexOf_absent c (s : string) :
  indexOf c s = (-1)%Z <-> ~ In c (list_ascii_of_string s).
Proof.
  induction s as [|d s IH]; simpl; [tauto|].
  destruct (Ascii.eqb_spec d c) as [->|Hne].
  - split; [lia | tauto].
  - pose proof (indexOf_ge c s) as Hge.
    assert (Hcases : (indexOf c s = -1 \/ 0 <= indexOf c s)%Z) by lia.
    destruct Hcases as [Hneg | Hpos].
    + rewrite Hneg. apply IH in Hneg. split; [|done].
      intros _ [Hd | Hin]; [done | by apply Hneg].
    + assert (Hin : In c (list_ascii_of_string s)).
      { destruct (classic_in c s) as [|Hn]; [done|]. apply IH in Hn. lia. }
      split; [|tauto]. destruct (indexOf c s); lia.
Qed.

End StringFacts.

Section ObjectFacts.
Import JsString.
Context {V : Type}.
Implicit Types o : list (string * V).

Lemma indexOf_first c (p q : string) :
  ~ In c (list_ascii_of_string p) ->
  indexOf c (p +:+ String c q) = Z.of_nat (String.length p).
Proof.
  induction p as [|d p IH]; intros Hp.
  - change (indexOf c (String c q) = 0%Z). simpl. by rewrite Ascii.eqb_refl.
  - change (indexOf c (String d (p +:+ String c q)) = Z.of_nat (S (String.length p))).
    simpl in Hp. simpl indexOf.
    destruct (Ascii.eqb_spec d c) as [->|Hne]; [tauto|].
    rewrite IH by tauto. destruct (String.length p); simpl; lia.
Qed.

Lemma get_app o1 o2 k :
  JsObject.get (o1 ++ o2) k
  = match JsObject.get o1 k with Some v => Some v | None => JsObject.get o2 k end.
Proof.
  induction o1 as [|[k' v'] o1 IH]; simpl; [done|].
  by destruct (String.eqb k' k).
Qed.

Lemma get_set o k v k' :
  JsObject.get (JsObject.set o k v) k'
  = if String.eqb k k' then Some v else JsObject.get o k'.
Proof.
  induction o as [|[k0 v0] o IH]; simpl.
  - done.
  - destruct (String.eqb_spec k0 k) as [->|Hne]; simpl.
    + by destruct (String.eqb k k').
    + rewrite IH. destruct (String.eqb_spec k0 k') as [->|]; [|done].
      by apply String.eqb_neq in Hne; rewrite String.eqb_sym, Hne.
Qed.

(** Assigning to a key the object does not have adds the property last. *)
Lemma set_fresh o k v :
  JsObject.get o k = None -> JsObject.set o k v = o ++ [(k, v)].
Proof.
  induction o as [|[k0 v0] o IH]; simpl; [done|].
  destruct (String.eqb k0 k); [done|]. intros H. by rewrite IH.
Qed.

Lemma get_None o k :
  JsObject.get o k = None <-> k ∉ map fst o.
Proof.
  induction o as [|[k0 v0] o IH]; simpl.
  - split; [intros _ []%elem_of_nil | done].
  - rewrite not_elem_of_cons. destruct (String.eqb_spec k0 k) as [->|Hne].
    + split; [done | tauto].
    + rewrite IH. split; [intros; split; congruence | tauto].
Qed.

Lemma get_Some_elem o k v :
  JsObject.get o k = Some v -> (k, v) ∈ o.
Proof.
  induction o as [|[k0 v0] o IH]; simpl; [done|].
  destruct (String.eqb_spec k0 k) as [->|Hne].
  - intros [= ->]. apply list_elem_of_here.
  - intros H. apply list_elem_of_further. by apply IH.
Qed.

Lemma insertIndexed_perm n (e : string * V) l :
  JsObject.insertIndexed n e l ≡ₚ (n, e) :: l.
Proof.
  induction l as [|[m e'] l IH]; simpl; [done|].
  destruct (n <? m)%N; [done|]. rewrite IH. apply Permutation_swap.
Qed.

(** The enumeration order never adds or loses a property. *)
Lemma ownEntries_perm o : JsObject.ownEntries o ≡ₚ o.
Proof.
  unfold JsObject.ownEntries.
  induction o as [|e o IH]; simpl; [done|].
  rewrite filter_cons. destruct (arrayIndex (fst e)) as [n|] eqn:Hn.
  - rewrite decide_False by done. rewrite insertIndexed_perm. simpl. by rewrite IH.
  - rewrite decide_True by done.
    rewrite <- Permutation_middle. by rewrite IH.
Qed.

Lemma indexedEntries_plain o :
  Forall (fun e => arrayIndex (fst e) = None) o -> JsObject.indexedEntries o = [].
Proof.
  unfold JsObject.indexedEntries.
  induction 1 as [|e o He Ho IH]; simpl; [done|]. by rewrite He.
Qed.

(** Without array-index keys the enumeration is the creation order. *)
Lemma ownEntries_plain o :
  Forall (fun e => arrayIndex (fst e) = None) o -> JsObject.ownEntries o = o.
Proof.
  intros Ho. unfold JsObject.ownEntries. rewrite indexedEntries_plain by done.
  simpl. induction Ho as [|e o He Ho IH]; [done|].
  by rewrite filter_cons, decide_True, IH.
Qed.

End ObjectFacts.

Lemma set_keys {V : Type} (o : list (string * V)) k v k' :
  k' ∈ map fst (JsObject.set o k v) <-> k' ∈ map fst o \/ k' = k.
Proof.
  induction o as [|[k0 v0] o IH]; simpl.
  - rewrite list_elem_of_singleton, elem_of_nil. tauto.
  - destruct (String.eqb_spec k0 k) as [->|Hne]; simpl.
    + rewrite !elem_of_cons. tauto.
    + rewrite !elem_of_cons, IH. tauto.
Qed.

(** ** Export to a file *)

Section Packaging.
Import JsString Snapshots.
Variable Snapshot : Type.
Variable stringifySnapshot : Snapshot -> string.
Variable stringifyAssets : list (string * Asset) -> string.

Local Abbreviation assetMember :=
  (fun e : Asset * File => ("assets/" +:+ assetId (fst e), content (snd e))).
Local Abbreviation indexPair := (fun e : Asset * File => (assetId (fst e), fst e)).
Local Abbreviation writeMember :=
  (fun (o : list (string * string)) (e : Asset * File) =>
     JsObject.set o ("assets/" +:+ assetId (fst e)) (content (snd e))).

Lemma state_ne_asset id : String.eqb "state.json" ("assets/" +:+ id) = false.
Proof. reflexivity. Qed.

Lemma asset_ne_index id : String.eqb ("assets/" +:+ id) "assets.json" = false.
Proof. reflexivity. Qed.

Lemma asset_not_arrayIndex id : arrayIndex ("assets/" +:+ id) = None.
Proof. reflexivity. Qed.

Lemma addAsset_head json idx rest e :
  addAsset (idx, ("state.json", json) :: rest) e
  = (idx ++ [indexPair e], ("state.json", json) :: writeMember rest e).
Proof. unfold addAsset. cbn [fst snd JsObject.set]. by rewrite state_ne_asset. Qed.

Lemma fold_addAsset json registered : forall idx rest,
  fold_left addAsset registered (idx, ("state.json", json) :: rest)
  = (idx ++ map indexPair registered,
     ("state.json", json) :: fold_left writeMember registered rest).
Proof.
  induction registered as [|e registered IH]; intros idx rest; cbn [fold_left map].
  - by rewrite app_nil_r.
  - rewrite addAsset_head, IH. by rewrite <- List.app_assoc.
Qed.

Lemma writeMember_keys registered : forall (rest : list (string * string)) k,
  k ∈ map fst (fold_left writeMember registered rest)
  <-> k ∈ map fst rest \/ exists e, e ∈ registered /\ k = "assets/" +:+ assetId (fst e).
Proof.
  induction registered as [|e registered IH]; intros rest k; cbn [fold_left].
  - split; [tauto|]. intros [H | (e & He & _)]; [done | by apply elem_of_nil in He].
  - rewrite IH, set_keys. split.
    + intros [[H | ->] | (e' & He' & ->)]; [tauto | |].
      * right. exists e. split; [apply list_elem_of_here | done].
      * right. exists e'. split; [by apply list_elem_of_further | done].
    + intros [H | (e' & He' & ->)]; [tauto|].
      apply elem_of_cons in He' as [-> | He']; [tauto|]. right. eauto.
Qed.

Lemma writeMember_fresh registered : forall rest : list (string * string),
  NoDup (map (fun e => assetId (fst e)) registered) ->
  (forall e, e ∈ registered -> "assets/" +:+ assetId (fst e) ∉ map fst rest) ->
  fold_left writeMember registered rest = rest ++ map assetMember registered.
Proof.
  induction registered as [|e registered IH]; intros rest Hnd Hfresh; cbn [fold_left map].
  - by rewrite app_nil_r.
  - cbn [map] in Hnd. apply NoDup_cons in Hnd as [He Hnd].
    rewrite set_fresh by (apply get_None, Hfresh, list_elem_of_here).
    rewrite IH; [by rewrite <- List.app_assoc | done |].
    intros e' He'. rewrite map_app, elem_of_app. cbn [map fst].
    rewrite list_elem_of_singleton. intros [Hin | Heq].
    + by apply (Hfresh e'); [apply list_elem_of_further|].
    + apply (inj (String.append "assets/")) in Heq. apply He. rewrite <- Heq.
      by apply (list_elem_of_fmap_2 (fun e => assetId (fst e))).
Qed.

Lemma map_fst_elem {A B : Type} (l : list (A * B)) (x : A * B) :
  x ∈ l -> fst x ∈ map fst l.
Proof.
  induction 1 as [? l | ? y l H IH]; simpl;
    [apply list_elem_of_here | by apply list_elem_of_further].
Qed.

(** The layout of the archive, shared by the statements about export and
    about the round trip. *)
Lemma archiveMembers_layout (payload : Snapshot) (registered : list (Asset * File)) :
  exists assetMembers,
    archiveMembers Snapshot stringifySnapshot stringifyAssets payload registered
    = ("state.json", stringifySnapshot payload) :: assetMembers
      ++ match registered with
         | [] => []
         | _ => [("assets.json", stringifyAssets (map indexPair registered))]
         end
    /\ (forall k, k ∈ map fst assetMembers
                  <-> exists e, e ∈ registered /\ k = "assets/" +:+ assetId (fst e))
    /\ (NoDup (map (fun e => assetId (fst e)) registered) ->
        assetMembers = map assetMember registered).
Proof.
  set (rest := fold_left writeMember registered []).
  assert (Hkeys : forall k, k ∈ map fst rest
                    <-> exists e, e ∈ registered /\ k = "assets/" +:+ assetId (fst e)).
  { intros k. unfold rest. rewrite writeMember_keys. simpl.
    rewrite elem_of_nil. tauto. }
  assert (Hplain : Forall (fun e : string * string => arrayIndex (fst e) = None) rest).
  { apply Forall_forall. intros x Hx. apply map_fst_elem, Hkeys in Hx as (e & _ & ->).
    apply asset_not_arrayIndex. }
  exists rest. split; [|split; [done|]].
  - unfold archiveMembers, zipDataObj. rewrite fold_addAsset. fold rest.
    rewrite app_nil_l, length_map.
    destruct registered as [|e registered'] eqn:Hreg.
    + reflexivity.
    + cbn [length Nat.ltb Nat.leb]. rewrite <- Hreg in *.
      rewrite set_fresh.
      * apply (ownEntries_plain (("state.json", stringifySnapshot payload)
                                   :: rest ++ [("assets.json", _)])).
        constructor; [done|]. apply Forall_app. split; [done|].
        constructor; [done | constructor].
      * apply get_None. cbn [map fst]. rewrite not_elem_of_cons. split; [done|].
        intros (e' & _ & Heq)%Hkeys.
        pose proof (asset_ne_index (assetId (fst e'))) as Hne.
        rewrite <- Heq in Hne. by rewrite String.eqb_refl in Hne.
  - intros Hnd. unfold rest. rewrite writeMember_fresh; [done | done |].
    intros e _ Hin. by apply elem_of_nil in Hin.
Qed.

Variable zip : list (string * string) -> string.
Variable getFormattedTime : string.

(** C4.  The archive holds [state.json] first, then the members written
    for the registered assets, whose names are exactly the [assets/<id>] of
    the registered assets, then [assets.json] with the index of all the
    registered assets, last; with pairwise distinct asset ids there is one
    member per registered asset, in registry order; [assets.json] is in the
    archive exactly when an asset member is; every export that is not plain
    JSON downloads the archive made of these members. *)
Theorem archive_member_order (payload : Snapshot) (registered : list (Asset * File)) :
  exists assetMembers,
    archiveMembers Snapshot stringifySnapshot stringifyAssets payload registered
    = ("state.json", stringifySnapshot payload) :: assetMembers
      ++ match registered with
         | [] => []
         | _ => [("assets.json", stringifyAssets (map indexPair registered))]
         end
    /\ (forall k, k ∈ map fst assetMembers
                  <-> exists e, e ∈ registered /\ k = "assets/" +:+ assetId (fst e))
    /\ (NoDup (map (fun e => assetId (fst e)) registered) ->
        assetMembers = map assetMember registered)
    /\ ("assets.json"
          ∈ map fst (archiveMembers Snapshot stringifySnapshot stringifyAssets
                       payload registered)
        <-> assetMembers <> [])
    /\ (forall name type, type <> "json" ->
        DownloadToFile Snapshot stringifySnapshot stringifyAssets zip getFormattedTime
          payload registered name type
        = [Download Snapshot (downloadName getFormattedTime name +:+ ".zip")
             "application/zip"
             (zip (archiveMembers Snapshot stringifySnapshot stringifyAssets
                     payload registered))]).
Proof.
  destruct (archiveMembers_layout payload registered) as (rest & Hmembers & Hkeys & Hnd).
  assert (Hrest : rest = [] <-> registered = []).
  { split.
    - intros Hnil. destruct registered as [|e registered']; [done|]. exfalso.
      assert (Hin : "assets/" +:+ assetId (fst e) ∈ map fst rest).
      { apply Hkeys. exists e. split; [apply list_elem_of_here | done]. }
      rewrite Hnil in Hin. by apply elem_of_nil in Hin.
    - intros ->. destruct rest as [|[k v] rest']; [done|]. exfalso.
      assert (Hin : k ∈ map fst ((k, v) :: rest')) by apply list_elem_of_here.
      apply Hkeys in Hin as (e & He & _). by apply elem_of_nil in He. }
  exists rest. split; [done|]. split; [done|]. split; [done|]. split.
  - rewrite Hmembers. cbn [map fst]. rewrite map_app, elem_of_cons, elem_of_app.
    split.
    + intros [Habs | [Hin | Hin]]; [done | |].
      * apply Hkeys in Hin as (e' & _ & Heq).
        pose proof (asset_ne_index (assetId (fst e'))) as Hne.
        rewrite <- Heq in Hne. by rewrite String.eqb_refl in Hne.
      * intros Hnil. apply Hrest in Hnil. rewrite Hnil in Hin.
        by apply elem_of_nil in Hin.
    + intros Hne. right. right. destruct registered; [by destruct Hne; apply Hrest|].
      apply list_elem_of_here.
  - intros name type Htype. unfold DownloadToFile.
    apply String.eqb_neq in Htype. by rewrite Htype.
Qed.

End Packaging.

(** ** Opening a file *)

Section Opening.
Import JsString Snapshots.
Variable Snapshot : Type.
Variable parseSnapshot : string -> option Snapshot.
Variable parseAssetIndex : string -> option (list (option (string * Asset))).
Variable unzip : string -> option (list (string * string)).

Local Abbreviation Ev := (Event Snapshot).
Local Abbreviation openFile := (OpenFile Snapshot parseSnapshot parseAssetIndex unzip).
Local Abbreviation body := (openFileBody Snapshot parseSnapshot parseAssetIndex unzip).
Local Abbreviation archive := (openArchive Snapshot parseSnapshot parseAssetIndex unzip).
Local Abbreviation applyState := (Snapshots.applyState Snapshot parseSnapshot).
Local Abbreviation registration :=
  (fun (assets : list (string * File)) (p : string * Asset) =>
     AssetSet Snapshot (snd p) (JsObject.get assets (fst p))).

Lemma registerAssets_run assets json :
  registerAssets Snapshot assets json
  = (map (registration assets) (destructured json),
     if allDestructured json then inr tt else inl TypeError).
Proof.
  induction json as [|[[id a]|] json IH]; [done | | done].
  cbn [registerAssets destructured allDestructured forallb map andb].
  unfold bind, emit. rewrite IH. done.
Qed.

Lemma openJson_run f :
  openJson Snapshot parseSnapshot f
  = (ReadFromFile Snapshot f asString :: fst (applyState (content f)),
     snd (applyState (content f))).
Proof.
  unfold openJson, readAsString, jsonParseSnapshot, applyState, bind, emit, ret, throw.
  by destruct (parseSnapshot (content f)).
Qed.

Lemma openArchive_run f data :
  unzip (content f) = Some data ->
  archive f =
    let assets := collectAssets data in
    let stateData := blobText (JsObject.get data "state.json") in
    let pre := [ReadFromFile Snapshot f asZip;
                ReadFromFile Snapshot (mkFile "state.json" stateData) asString] in
    match JsObject.get data "assets.json" with
    | None => (pre ++ fst (applyState stateData), snd (applyState stateData))
    | Some index =>
      let pre2 := pre ++ [ReadFromFile Snapshot (mkFile "assets.json" index) asString;
                          JsonParse Snapshot index] in
      match parseAssetIndex index with
      | None => (pre2, inl (SyntaxError index))
      | Some json =>
        let regs := map (registration assets) (destructured json) in
        if allDestructured json
        then (pre2 ++ regs ++ fst (applyState stateData), snd (applyState stateData))
        else (pre2 ++ regs, inl TypeError)
      end
    end.
Proof.
  intros Hz.
  unfold openArchive, readAsZip, readAsString, jsonParseAssets, jsonParseSnapshot,
    applyState, bind, emit, ret, throw.
  rewrite Hz. cbn [content].
  destruct (JsObject.get data "assets.json") as [index|].
  - cbn [content]. destruct (parseAssetIndex index) as [json|]; [|done].
    rewrite registerAssets_run.
    destruct (allDestructured json);
      destruct (parseSnapshot (blobText (JsObject.get data "state.json")));
      cbn; rewrite ?app_nil_r; try done; by rewrite <- ?List.app_assoc.
  - by destruct (parseSnapshot (blobText (JsObject.get data "state.json"))).
Qed.

(** *** Format detection *)

(** C9.  A file takes the plain JSON path exactly when its lower-cased name
    ends with the four characters [json], whatever precedes them and
    whatever the case; every other file is read as an archive. *)
Theorem openFile_format_detection (f : File) :
  (isJsonName f = true <-> exists p, toLowerCase (name f) = p +:+ "json")
  /\ (isJsonName f = true ->
      body f = openJson Snapshot parseSnapshot f
      /\ openFile f
         = ReadFromFile Snapshot f asString :: JsonParse Snapshot (content f)
           :: match parseSnapshot (content f) with
              | Some s => [SetSnapshot Snapshot s]
              | None => [LogError Snapshot (SyntaxError (content f))]
              end)
  /\ (isJsonName f = false ->
      body f = archive f
      /\ head (openFile f) = Some (ReadFromFile Snapshot f asZip))
  /\ (forall c, isJsonName (mkFile "foo.moljson" c) = true
                /\ isJsonName (mkFile "statejson" c) = true
                /\ isJsonName (mkFile "Session.JSON" c) = true
                /\ isJsonName (mkFile "json.zip" c) = false
                /\ isJsonName (mkFile "state.molx" c) = false
                /\ isJsonName (mkFile "son" c) = false).
Proof.
  split; [apply endsWith_suffix|]. split; [|split; [|done]].
  - intros Hj. unfold OpenFile, openFileBody. rewrite Hj. split; [done|].
    rewrite openJson_run. unfold Snapshots.applyState, tryLog.
    by destruct (parseSnapshot (content f)).
  - intros Hj. unfold OpenFile, openFileBody. rewrite Hj. split; [done|].
    destruct (unzip (content f)) as [data|] eqn:Hz.
    + rewrite (openArchive_run f data Hz). cbn zeta.
      destruct (applyState (blobText (JsObject.get data "state.json"))) as [tr [e|[]]];
        destruct (JsObject.get data "assets.json") as [index|];
        try destruct (parseAssetIndex index) as [json|];
        try destruct (allDestructured json); done.
    + unfold openArchive, readAsZip, bind, emit. by rewrite Hz.
Qed.

(** *** The members of an archive *)

(** Turns a membership in an explicit list into a disjunction. *)
Ltac split_mem H :=
  repeat first [rewrite elem_of_cons in H | rewrite elem_of_app in H
               | rewrite elem_of_nil in H].

(** Closes a goal [ev ∈ tr -> _] when [tr] is an explicit list of events
    built with other constructors than [ev]. *)
Ltac absent_event :=
  let H := fresh "H" in
  intros H;
  repeat (apply elem_of_cons in H as [H|H]; [discriminate H|]);
  by apply elem_of_nil in H.

Lemma dropStr_past c (p q : string) :
  dropStr (S (String.length p)) (p +:+ String c q) = q.
Proof. induction p as [|d p IH]; [done | exact IH]. Qed.

Lemma assetKey_slash (p q : string) :
  ~ In "/"%char (list_ascii_of_string p) -> assetKey (p +:+ String "/" q) = q.
Proof.
  intros Hp. unfold assetKey, substringFrom. rewrite indexOf_first by done.
  replace (Z.to_nat (Z.of_nat (String.length p) + 1)) with (S (String.length p)) by lia.
  apply dropStr_past.
Qed.

Lemma assetKey_whole (k : string) :
  ~ In "/"%char (list_ascii_of_string k) -> assetKey k = k.
Proof.
  intros Hk. unfold assetKey, substringFrom.
  apply indexOf_absent in Hk. by rewrite Hk.
Qed.

Lemma collectMember_get acc e key :
  JsObject.get (collectMember acc e) key
  = if negb (isSpecialMember (fst e)) && String.eqb (assetKey (fst e)) key
    then Some (mkFile key (snd e)) else JsObject.get acc key.
Proof.
  unfold collectMember. destruct (isSpecialMember (fst e)); [done|].
  rewrite get_set. cbn [negb andb].
  by destruct (String.eqb_spec (assetKey (fst e)) key) as [->|].
Qed.

Lemma collect_get entries : forall acc key,
  JsObject.get (fold_left collectMember entries acc) key
  = match memberFor key entries with
    | Some v => Some (mkFile key v)
    | None => JsObject.get acc key
    end.
Proof.
  induction entries as [|e entries IH]; intros acc key; cbn [fold_left memberFor]; [done|].
  rewrite IH. destruct (memberFor key entries); [done|].
  rewrite collectMember_get. by destruct (_ && _).
Qed.

Lemma memberFor_Some key entries v :
  memberFor key entries = Some v ->
  exists k, (k, v) ∈ entries /\ isSpecialMember k = false /\ assetKey k = key.
Proof.
  induction entries as [|[k0 v0] entries IH]; cbn [memberFor fst snd]; [done|].
  destruct (memberFor key entries) as [w|].
  - intros [= ->]. destruct IH as (k & Hin & H); [done|].
    exists k. split; [by apply list_elem_of_further | done].
  - destruct (isSpecialMember k0) eqn:Hs; [done|]. cbn [negb andb].
    destruct (String.eqb_spec (assetKey k0) key) as [Hk|]; [|done].
    intros [= ->]. exists k0. split; [apply list_elem_of_here | done].
Qed.

Lemma memberFor_is_Some entries k v :
  (k, v) ∈ entries -> isSpecialMember k = false ->
  is_Some (memberFor (assetKey k) entries).
Proof.
  intros Hin Hs. induction entries as [|e entries IH]; [by apply elem_of_nil in Hin|].
  cbn [memberFor]. apply elem_of_cons in Hin as [<- | Hin].
  - destruct (memberFor (assetKey k) entries); [done|].
    cbn [fst snd]. by rewrite Hs, String.eqb_refl.
  - destruct (IH Hin) as [w ->]. done.
Qed.

Lemma registered_listed f a b :
  AssetSet Snapshot a b ∈ openFile f ->
  exists data index json id,
    isJsonName f = false /\ unzip (content f) = Some data
    /\ JsObject.get data "assets.json" = Some index
    /\ parseAssetIndex index = Some json
    /\ (id, a) ∈ destructured json
    /\ b = JsObject.get (collectAssets data) id.
Proof.
  unfold OpenFile, openFileBody. destruct (isJsonName f) eqn:Hj.
  - rewrite openJson_run. unfold Snapshots.applyState, tryLog.
    destruct (parseSnapshot (content f)); cbn; absent_event.
  - destruct (unzip (content f)) as [data|] eqn:Hz.
    + rewrite (openArchive_run f data Hz). cbn zeta.
      assert (Hfin : forall e, AssetSet Snapshot a b
                                 ∈ tryLog Snapshot (fst (applyState e), snd (applyState e))
                               -> False).
      { intros e. unfold Snapshots.applyState, tryLog.
        destruct (parseSnapshot e); cbn; absent_event. }
      destruct (JsObject.get data "assets.json") as [index|] eqn:Hi.
      * destruct (parseAssetIndex index) as [json|] eqn:Hp.
        -- intros Hin.
           assert (Hreg : AssetSet Snapshot a b
                            ∈ map (registration (collectAssets data)) (destructured json)).
           { revert Hin. unfold Snapshots.applyState, tryLog.
             destruct (allDestructured json);
               destruct (parseSnapshot (blobText (JsObject.get data "state.json")));
               cbn; intros H;
               split_mem H; intuition (try discriminate). }
           apply list_elem_of_fmap_1 in Hreg as ([id a'] & [= -> ->] & Hin').
           exists data, index, json, id. done.
        -- unfold tryLog. cbn. absent_event.
      * unfold Snapshots.applyState, tryLog.
        destruct (parseSnapshot (blobText (JsObject.get data "state.json"))); cbn;
          absent_event.
    + unfold openArchive, readAsZip, bind, emit, tryLog. rewrite Hz. cbn.
      absent_event.
Qed.

Lemma destructured_elem json p :
  p ∈ destructured json -> Some p ∈ json.
Proof.
  induction json as [|[q|] json IH]; cbn [destructured];
    [by intros ?%elem_of_nil | | by intros ?%elem_of_nil].
  intros [->|H]%elem_of_cons; [apply list_elem_of_here | by apply list_elem_of_further, IH].
Qed.

(** C10.  Every member of an opened archive other than [state.json] and
    [assets.json] is collected as a file named, and keyed, by what follows
    the first slash of its name, or by the whole name when there is no
    slash; the file kept under a key holds the content of the last such
    member; and every binary handed to the asset registry is the one kept
    under an id listed in [assets.json]. *)
Theorem archive_members_collected :
  (forall k, isSpecialMember k = true <-> k = "state.json" \/ k = "assets.json")
  /\ (forall p q, ~ In "/"%char (list_ascii_of_string p) ->
                  assetKey (p +:+ String "/" q) = q)
  /\ (forall k, ~ In "/"%char (list_ascii_of_string k) -> assetKey k = k)
  /\ (forall data key,
        JsObject.get (collectAssets data) key
        = mkFile key <$> memberFor key (JsObject.ownEntries data))
  /\ (forall data k v, (k, v) ∈ data -> isSpecialMember k = false ->
        exists file, JsObject.get (collectAssets data) (assetKey k) = Some file
                     /\ name file = assetKey k)
  /\ (forall data key file, JsObject.get (collectAssets data) key = Some file ->
        exists k v, (k, v) ∈ data /\ isSpecialMember k = false
                    /\ assetKey k = key /\ file = mkFile key v)
  /\ (forall f a b, AssetSet Snapshot a b ∈ openFile f ->
        exists data index json id,
          isJsonName f = false /\ unzip (content f) = Some data
          /\ JsObject.get data "assets.json" = Some index
          /\ parseAssetIndex index = Some json
          /\ Some (id, a) ∈ json
          /\ b = JsObject.get (collectAssets data) id).
Proof.
  assert (Hget : forall data key,
             JsObject.get (collectAssets data) key
             = mkFile key <$> memberFor key (JsObject.ownEntries data)).
  { intros data key. unfold collectAssets. rewrite collect_get.
    by destruct (memberFor key (JsObject.ownEntries data)). }
  split; [|split; [apply assetKey_slash | split; [apply assetKey_whole | split; [done|]]]].
  - intros k. unfold isSpecialMember. rewrite orb_true_iff, !String.eqb_eq. tauto.
  - split; [|split].
    + intros data k v Hin Hs.
      assert (Hin' : (k, v) ∈ JsObject.ownEntries data) by (by rewrite ownEntries_perm).
      destruct (memberFor_is_Some _ _ _ Hin' Hs) as [w Hw].
      exists (mkFile (assetKey k) w). by rewrite Hget, Hw.
    + intros data key file. rewrite Hget.
      destruct (memberFor key (JsObject.ownEntries data)) as [w|] eqn:Hw; [|done].
      intros [= <-]. apply memberFor_Some in Hw as (k & Hin & Hs & Hk).
      exists k, w. rewrite ownEntries_perm in Hin. done.
    + intros f a b Hin.
      destruct (registered_listed f a b Hin) as (data & index & json & id & H).
      exists data, index, json, id. intuition. by apply destructured_elem.
Qed.

(** *** Registration comes first *)

Lemma allDestructured_spec json :
  allDestructured json = true <-> json = map Some (destructured json).
Proof.
  induction json as [|[p|] json IH]; cbn [allDestructured forallb destructured map andb].
  - done.
  - fold (allDestructured json). rewrite IH. split; [by intros <- | by intros [= <-]].
  - done.
Qed.

Lemma registration_not_snapshot assets l s :
  SetSnapshot Snapshot s ∈ map (registration assets) l -> False.
Proof. induction l as [|p l IH]; cbn [map]; intros H; split_mem H; intuition discriminate. Qed.

(** Case analysis on where a [SetSnapshot] event sits in a trace. *)
Ltac snapshot_cases :=
  repeat match goal with
         | H : _ \/ _ |- _ => destruct H as [H | H]
         | H : False |- _ => destruct H
         | H : SetSnapshot _ _ ∈ map _ _ |- _ =>
           apply registration_not_snapshot in H; destruct H
         | H : SetSnapshot _ _ = _ |- _ => first [discriminate H | injection H as ->]
         end.

Lemma registrations_first f data index json :
  isJsonName f = false -> unzip (content f) = Some data ->
  JsObject.get data "assets.json" = Some index ->
  parseAssetIndex index = Some json ->
  let stateData := blobText (JsObject.get data "state.json") in
  exists tail,
    openFile f
    = [ReadFromFile Snapshot f asZip;
       ReadFromFile Snapshot (mkFile "state.json" stateData) asString;
       ReadFromFile Snapshot (mkFile "assets.json" index) asString;
       JsonParse Snapshot index]
      ++ map (registration (collectAssets data)) (destructured json) ++ tail
    /\ Forall (fun ev => isAssetSet Snapshot ev = false) tail
    /\ (forall s, SetSnapshot Snapshot s ∈ openFile f ->
          json = map Some (destructured json)
          /\ parseSnapshot stateData = Some s
          /\ tail = [JsonParse Snapshot stateData; SetSnapshot Snapshot s]).
Proof.
  intros Hj Hz Hi Hp stateData.
  unfold OpenFile, openFileBody. rewrite Hj, (openArchive_run f data Hz).
  cbn zeta. rewrite Hi, Hp. fold stateData.
  destruct (allDestructured json) eqn:Hall.
  - apply allDestructured_spec in Hall.
    unfold Snapshots.applyState. destruct (parseSnapshot stateData) as [s|]; cbn [fst snd tryLog].
    + exists [JsonParse Snapshot stateData; SetSnapshot Snapshot s].
      split; [by rewrite <- !List.app_assoc|]. split; [by repeat constructor|].
      intros s' Hin. split; [done|].
      assert (s' = s) as ->; [|done].
      split_mem Hin. by snapshot_cases.
    + exists [JsonParse Snapshot stateData; LogError Snapshot (SyntaxError stateData)].
      split; [by rewrite <- !List.app_assoc|]. split; [by repeat constructor|].
      intros s' Hin. exfalso. split_mem Hin. by snapshot_cases.
  - cbn [tryLog]. exists [LogError Snapshot TypeError].
    split; [by rewrite <- !List.app_assoc|]. split; [by repeat constructor|].
    intros s' Hin. exfalso. split_mem Hin. by snapshot_cases.
Qed.

(** *** Failures while opening *)

Variable Tree : Type.
Variable setSnapshot : Snapshot -> Tree -> Tree.
Local Abbreviation run := (Snapshots.run Snapshot Tree setSnapshot).

Lemma run_app st tr1 tr2 : run st (tr1 ++ tr2) = run (run st tr1) tr2.
Proof. apply fold_left_app. Qed.

Lemma run_registry tr : forall st,
  registry _ (run st tr) = registry _ st ++ registeredBy Snapshot tr.
Proof.
  induction tr as [|ev tr IH]; intros st; cbn [Snapshots.run fold_left registeredBy flat_map].
  - by rewrite app_nil_r.
  - fold (run (step Snapshot Tree setSnapshot st ev) tr). rewrite IH.
    fold (registeredBy Snapshot tr).
    destruct ev; cbn [step registry]; try done. by rewrite <- List.app_assoc.
Qed.

Lemma run_committed tr : forall st,
  Forall (fun ev => isSetSnapshot Snapshot ev = false) tr ->
  committed _ (run st tr) = committed _ st.
Proof.
  induction tr as [|ev tr IH]; intros st Hq; [done|].
  apply Forall_cons in Hq as [Hev Hq].
  cbn [Snapshots.run fold_left]. fold (run (step Snapshot Tree setSnapshot st ev) tr).
  rewrite IH by done. by destruct ev.
Qed.

Lemma run_log tr : forall st,
  Forall (fun ev => isLogError Snapshot ev = false) tr ->
  log _ (run st tr) = log _ st.
Proof.
  induction tr as [|ev tr IH]; intros st Hq; [done|].
  apply Forall_cons in Hq as [Hev Hq].
  cbn [Snapshots.run fold_left]. fold (run (step Snapshot Tree setSnapshot st ev) tr).
  rewrite IH by done. by destruct ev.
Qed.

(** The trace of the [try] block: reads and parses, then registrations,
    then either the two closing statements on a state text or nothing. *)
Lemma body_shape f tr r :
  body f = (tr, r) ->
  exists pre regs post,
    tr = pre ++ map (fun p => AssetSet Snapshot (fst p) (snd p)) regs ++ post
    /\ Forall (fun ev => quiet Snapshot ev = true) pre
    /\ ((exists x, (post, r) = applyState x) \/ (post = [] /\ exists e, r = inl e)).
Proof.
  unfold openFileBody. destruct (isJsonName f).
  - rewrite openJson_run. intros [= <- <-].
    exists [ReadFromFile Snapshot f asString], [], (fst (applyState (content f))).
    split; [reflexivity|]. split; [by repeat constructor|].
    left. exists (content f). by destruct (applyState (content f)).
  - destruct (unzip (content f)) as [data|] eqn:Hz.
    + rewrite (openArchive_run f data Hz). cbn zeta.
      set (stateData := blobText (JsObject.get data "state.json")).
      destruct (JsObject.get data "assets.json") as [index|].
      * destruct (parseAssetIndex index) as [json|].
        -- set (regs := map (fun p : string * Asset =>
                               (snd p, JsObject.get (collectAssets data) (fst p)))
                            (destructured json)).
           assert (Hregs : map (registration (collectAssets data)) (destructured json)
                           = map (fun p => AssetSet Snapshot (fst p) (snd p)) regs).
           { unfold regs. rewrite map_map. done. }
           rewrite Hregs.
           destruct (allDestructured json); intros [= <- <-].
           ++ exists (ReadFromFile Snapshot f asZip
                      :: ReadFromFile Snapshot (mkFile "state.json" stateData) asString
                      :: ReadFromFile Snapshot (mkFile "assets.json" index) asString
                      :: [JsonParse Snapshot index]), regs, (fst (applyState stateData)).
              split; [reflexivity|]. split; [by repeat constructor|].
              left. exists stateData. by destruct (applyState stateData).
           ++ exists (ReadFromFile Snapshot f asZip
                      :: ReadFromFile Snapshot (mkFile "state.json" stateData) asString
                      :: ReadFromFile Snapshot (mkFile "assets.json" index) asString
                      :: [JsonParse Snapshot index]), regs, []. rewrite app_nil_r.
              split; [reflexivity|]. split; [by repeat constructor|]. right. eauto.
        -- intros [= <- <-]. exists (ReadFromFile Snapshot f asZip
                      :: ReadFromFile Snapshot (mkFile "state.json" stateData) asString
                      :: ReadFromFile Snapshot (mkFile "assets.json" index) asString
                      :: [JsonParse Snapshot index]), [], [].
           split; [reflexivity|]. split; [by repeat constructor|]. right. eauto.
      * intros [= <- <-].
        exists (ReadFromFile Snapshot f asZip
                   :: [ReadFromFile Snapshot (mkFile "state.json" stateData) asString]), [], (fst (applyState stateData)).
        split; [reflexivity|]. split; [by repeat constructor|].
        left. exists stateData. by destruct (applyState stateData).
    + unfold openArchive, readAsZip, bind, emit, throw. rewrite Hz.
      intros [= <- <-]. exists [ReadFromFile Snapshot f asZip], [], [].
      split; [reflexivity|]. split; [by repeat constructor|]. right. eauto.
Qed.

Lemma quiet_flags ev :
  quiet Snapshot ev = true ->
  isSetSnapshot Snapshot ev = false /\ isLogError Snapshot ev = false
  /\ isAssetSet Snapshot ev = false.
Proof. by destruct ev. Qed.

Lemma failure_trace f tr e :
  body f = (tr, inl e) ->
  Forall (fun ev => isSetSnapshot Snapshot ev = false) tr
  /\ Forall (fun ev => isLogError Snapshot ev = false) tr.
Proof.
  intros Hb. destruct (body_shape f tr _ Hb) as (pre & regs & post & -> & Hpre & Hpost).
  assert (Hp : post = [] \/ exists x, post = [JsonParse Snapshot x]).
  { destruct Hpost as [(x & Hx) | (-> & _)]; [|by left].
    unfold Snapshots.applyState in Hx. destruct (parseSnapshot x); [done|].
    injection Hx as -> _. right. eauto. }
  split; rewrite !Forall_app; (split; [|split]).
  - eapply Forall_impl; [exact Hpre|]. intros ev Hev. by apply quiet_flags in Hev as (? & ? & ?).
  - by apply Forall_fmap, Forall_true.
  - destruct Hp as [-> | (x & ->)]; by repeat constructor.
  - eapply Forall_impl; [exact Hpre|]. intros ev Hev. by apply quiet_flags in Hev as (? & ? & ?).
  - by apply Forall_fmap, Forall_true.
  - destruct Hp as [-> | (x & ->)]; by repeat constructor.
Qed.

Lemma registeredBy_app (tr1 tr2 : list Ev) :
  registeredBy Snapshot (tr1 ++ tr2)
  = registeredBy Snapshot tr1 ++ registeredBy Snapshot tr2.
Proof. apply flat_map_app. Qed.

Lemma registeredBy_quiet ev (tr : list Ev) :
  quiet Snapshot ev = true ->
  registeredBy Snapshot (ev :: tr) = registeredBy Snapshot tr.
Proof. by destruct ev. Qed.

Lemma registeredBy_registrations assets l :
  registeredBy Snapshot (map (registration assets) l)
  = map (fun p => (snd p, JsObject.get assets (fst p))) l.
Proof.
  unfold registeredBy. induction l as [|p l IH]; simpl; [done | by rewrite IH].
Qed.

Lemma registeredBy_applyState x :
  registeredBy Snapshot (fst (applyState x)) = [].
Proof. unfold Snapshots.applyState. by destruct (parseSnapshot x). Qed.

(** What an archive registers before the [try] block is left, whatever the
    way it is left. *)
Lemma archive_registered f data tr r :
  unzip (content f) = Some data ->
  archive f = (tr, r) ->
  registeredBy Snapshot tr
  = match JsObject.get data "assets.json" with
    | None => []
    | Some index =>
      match parseAssetIndex index with
      | None => []
      | Some json =>
        map (fun p => (snd p, JsObject.get (collectAssets data) (fst p)))
            (destructured json)
      end
    end.
Proof.
  intros Hz. rewrite (openArchive_run f data Hz). cbn zeta.
  destruct (JsObject.get data "assets.json") as [index|].
  - destruct (parseAssetIndex index) as [json|]; [|by intros [= <- <-]].
    destruct (allDestructured json); intros [= <- <-];
      rewrite !registeredBy_quiet by done;
      rewrite ?registeredBy_app, registeredBy_registrations, ?registeredBy_applyState;
      by rewrite ?app_nil_r.
  - intros [= <- <-]. rewrite !registeredBy_quiet by done.
    apply registeredBy_applyState.
Qed.

(** C6 (amended).  When the [try] block of the open handler fails (the
    state text or the asset index does not parse, an index entry cannot be
    destructured, the archive cannot be read), the error is caught and
    logged and [setSnapshot] is never called: the committed tree is as
    before and the log has one more line.  The asset registry is as before
    for a plain JSON file and for an archive that cannot be read, has no
    [assets.json], or an unparseable one; otherwise the assets listed ahead
    of the failure have been registered and stay so. *)
Theorem openFile_failure_logged (f : File) (tr : list Ev) (e : Error) :
  body f = (tr, inl e) ->
  openFile f = tr ++ [LogError Snapshot e]
  /\ Forall (fun ev => isSetSnapshot Snapshot ev = false) (openFile f)
  /\ (forall st,
        committed _ (run st (openFile f)) = committed _ st
        /\ log _ (run st (openFile f)) = log _ st ++ [e]
        /\ registry _ (run st (openFile f))
           = registry _ st ++ registeredBy Snapshot tr)
  /\ (isJsonName f = true -> registeredBy Snapshot tr = [])
  /\ (unzip (content f) = None -> registeredBy Snapshot tr = [])
  /\ (forall data, isJsonName f = false -> unzip (content f) = Some data ->
        registeredBy Snapshot tr
        = match JsObject.get data "assets.json" with
          | None => []
          | Some index =>
            match parseAssetIndex index with
            | None => []
            | Some json =>
              map (fun p => (snd p, JsObject.get (collectAssets data) (fst p)))
                  (destructured json)
            end
          end).
Proof.
  intros Hb. destruct (failure_trace f tr e Hb) as [Hsnap Hlog].
  assert (Hopen : openFile f = tr ++ [LogError Snapshot e])
    by (unfold OpenFile; by rewrite Hb).
  assert (Hjson : isJsonName f = true -> registeredBy Snapshot tr = []).
  { intros Hj. revert Hb. unfold openFileBody. rewrite Hj, openJson_run.
    intros [= <- _]. rewrite registeredBy_quiet by done.
    apply registeredBy_applyState. }
  split; [done|]. rewrite Hopen. split; [|split; [|split; [done | split]]].
  - apply Forall_app. split; [done | by repeat constructor].
  - intros st. rewrite run_app. cbn [Snapshots.run fold_left step committed log registry].
    fold (run st tr). rewrite run_committed, run_log, run_registry by done. done.
  - intros Hz. destruct (isJsonName f) eqn:Hj; [by apply Hjson|].
    revert Hb. unfold openFileBody. rewrite Hj.
    unfold openArchive, readAsZip, bind, emit, throw. rewrite Hz. by intros [= <- _].
  - intros data Hj Hz. apply (archive_registered f data tr (inl e) Hz).
    revert Hb. unfold openFileBody. by rewrite Hj.
Qed.

End Opening.

(** ** Export, then open *)

Section RoundTrip.
Import JsString Snapshots.
Variable Snapshot : Type.
Variable parseSnapshot : string -> option Snapshot.
Variable parseAssetIndex : string -> option (list (option (string * Asset))).
Variable unzip : string -> option (list (string * string)).
Variable stringifySnapshot : Snapshot -> string.
Variable stringifyAssets : list (string * Asset) -> string.
Variable zip : list (string * string) -> string.
Variable getFormattedTime : string.

Local Abbreviation openFile := (OpenFile Snapshot parseSnapshot parseAssetIndex unzip).
Local Abbreviation members :=
  (archiveMembers Snapshot stringifySnapshot stringifyAssets).
Local Abbreviation assetMember :=
  (fun e : Asset * File => ("assets/" +:+ assetId (fst e), content (snd e))).
Local Abbreviation indexPair := (fun e : Asset * File => (assetId (fst e), fst e)).
Local Abbreviation restored :=
  (fun e : Asset * File => Some (mkFile (assetId (fst e)) (content (snd e)))).

Lemma zip_name_not_json (x c : string) : isJsonName (mkFile (x +:+ ".zip") c) = false.
Proof.
  unfold isJsonName, endsWith. cbn [name]. rewrite toLowerCase_append, length_append.
  change (String.length (toLowerCase ".zip")) with 4.
  change (String.length "json") with 4.
  destruct (Nat.ltb_spec (String.length (toLowerCase x) + 4) 4); [done|].
  replace (String.length (toLowerCase x) + 4 - 4) with (String.length (toLowerCase x)) by lia.
  by rewrite dropStr_append.
Qed.

Lemma assetKey_asset id : assetKey ("assets/" +:+ id) = id.
Proof. reflexivity. Qed.

Lemma asset_not_special id : isSpecialMember ("assets/" +:+ id) = false.
Proof. reflexivity. Qed.

Lemma distinct_keys {A : Type} (g : A -> string) (l : list A) x y :
  NoDup (map g l) -> x ∈ l -> y ∈ l -> g x = g y -> x = y.
Proof.
  induction l as [|a l IH]; cbn [map]; intros Hnd Hx Hy Hg.
  - by apply elem_of_nil in Hx.
  - apply NoDup_cons in Hnd as [Ha Hnd].
    apply elem_of_cons in Hx as [-> | Hx], Hy as [-> | Hy]; [done | | | by apply IH].
    + exfalso. apply Ha. rewrite Hg. by apply (list_elem_of_fmap_2 g).
    + exfalso. apply Ha. rewrite <- Hg. by apply (list_elem_of_fmap_2 g).
Qed.

Lemma memberFor_unique key entries v0 :
  (exists k, (k, v0) ∈ entries /\ isSpecialMember k = false /\ assetKey k = key) ->
  (forall k v, (k, v) ∈ entries -> isSpecialMember k = false -> assetKey k = key -> v = v0) ->
  memberFor key entries = Some v0.
Proof.
  intros (k & Hin & Hs & <-) Huniq.
  destruct (memberFor_is_Some entries k v0 Hin Hs) as [w Hw].
  rewrite Hw. f_equal.
  apply memberFor_Some in Hw as (k' & Hin' & Hs' & Hk'). by eapply Huniq.
Qed.

Lemma get_assetMembers (registered : list (Asset * File)) k :
  (forall id, k <> "assets/" +:+ id) ->
  JsObject.get (map assetMember registered) k = None.
Proof.
  intros Hk. apply get_None. intros Hin.
  apply list_elem_of_fmap_1 in Hin as ([k' v] & -> & Hin).
  apply list_elem_of_fmap_1 in Hin as (e & [= -> ->] & _). by apply (Hk (assetId (fst e))).
Qed.

Lemma collected_asset (sj : string) (registered : list (Asset * File)) tl a f :
  NoDup (map (fun e => assetId (fst e)) registered) ->
  Forall (fun e : string * string => isSpecialMember (fst e) = true) tl ->
  (a, f) ∈ registered ->
  JsObject.get (collectAssets (("state.json", sj) :: map assetMember registered ++ tl))
               (assetId a)
  = Some (mkFile (assetId a) (content f)).
Proof.
  intros Hnd Htl Hin. unfold collectAssets. rewrite collect_get.
  rewrite (memberFor_unique _ _ (content f)); [done | |].
  - exists ("assets/" +:+ assetId a). split; [|done].
    rewrite ownEntries_perm. apply list_elem_of_further, elem_of_app. left.
    by apply (list_elem_of_fmap_2 assetMember _ (a, f)).
  - intros k v Hkv Hs Hk. rewrite ownEntries_perm in Hkv.
    apply elem_of_cons in Hkv as [[= -> ->] | Hkv]; [done|].
    apply elem_of_app in Hkv as [Hkv | Hkv].
    + apply list_elem_of_fmap_1 in Hkv as ([a' f'] & [= -> ->] & Hin').
      cbn [fst snd] in *. rewrite assetKey_asset in Hk.
      assert (Heq : (a', f') = (a, f))
        by (by apply (distinct_keys (fun e => assetId (fst e)) registered)).
      by injection Heq as -> ->.
    + rewrite Forall_forall in Htl. apply Htl in Hkv. cbn [fst] in Hkv. congruence.
Qed.

Lemma destructured_Some (l : list (string * Asset)) : destructured (map Some l) = l.
Proof. induction l as [|p l IH]; [done|]. cbn [map destructured]. by rewrite IH. Qed.

(** C5.  In every opened archive that has an [assets.json] member, the
    pairs recovered from it are registered, each with the file kept under
    its id, before the state text is parsed, and [setSnapshot] is called
    only after all of them; an archive exported from a registry of [N]
    assets with pairwise distinct ids, opened again, registers exactly these
    [N] assets, each with the bytes of its file, and only then parses and
    applies the state. *)
Theorem assets_registered_before_state :
  (forall f data index json,
      isJsonName f = false -> unzip (content f) = Some data ->
      JsObject.get data "assets.json" = Some index ->
      parseAssetIndex index = Some json ->
      let stateData := blobText (JsObject.get data "state.json") in
      exists tail,
        openFile f
        = [ReadFromFile Snapshot f asZip;
           ReadFromFile Snapshot (mkFile "state.json" stateData) asString;
           ReadFromFile Snapshot (mkFile "assets.json" index) asString;
           JsonParse Snapshot index]
          ++ map (fun p => AssetSet Snapshot (snd p)
                             (JsObject.get (collectAssets data) (fst p)))
                 (destructured json)
          ++ tail
        /\ Forall (fun ev => isAssetSet Snapshot ev = false) tail
        /\ (forall s, SetSnapshot Snapshot s ∈ openFile f ->
              json = map Some (destructured json)
              /\ parseSnapshot stateData = Some s
              /\ tail = [JsonParse Snapshot stateData; SetSnapshot Snapshot s]))
  /\ (forall payload registered base,
        let archive := zip (members payload registered) in
        let file := mkFile (downloadName getFormattedTime base +:+ ".zip") archive in
        NoDup (map (fun e => assetId (fst e)) registered) ->
        unzip archive = Some (members payload registered) ->
        (registered <> [] ->
         parseAssetIndex (stringifyAssets (map indexPair registered))
         = Some (map Some (map indexPair registered))) ->
        parseSnapshot (stringifySnapshot payload) = Some payload ->
        DownloadToFile Snapshot stringifySnapshot stringifyAssets zip getFormattedTime
          payload registered base "zip"
        = [Download Snapshot (name file) "application/zip" (content file)]
        /\ exists pre,
            openFile file
            = pre ++ map (fun e => AssetSet Snapshot (fst e) (restored e)) registered
                  ++ [JsonParse Snapshot (stringifySnapshot payload);
                      SetSnapshot Snapshot payload]
            /\ Forall (fun ev => quiet Snapshot ev = true) pre
            /\ registeredBy Snapshot (openFile file)
               = map (fun e => (fst e, restored e)) registered
            /\ length (registeredBy Snapshot (openFile file)) = length registered).
Proof.
  split; [apply registrations_first|].
  intros payload registered base archive file Hnd Hz Hidx Hstate.
  split; [done|].
  destruct (archiveMembers_layout Snapshot stringifySnapshot stringifyAssets
              payload registered) as (rest & Hm & _ & Hrest).
  rewrite (Hrest Hnd) in Hm. clear rest Hrest.
  set (sj := stringifySnapshot payload) in *.
  set (tl := match registered with
             | [] => []
             | _ :: _ => [("assets.json", stringifyAssets (map indexPair registered))]
             end) in *.
  assert (Htl : Forall (fun e : string * string => isSpecialMember (fst e) = true) tl).
  { unfold tl. destruct registered; by repeat constructor. }
  assert (Hregs : map (fun p : string * Asset =>
                         AssetSet Snapshot (snd p)
                           (JsObject.get (collectAssets (members payload registered)) (fst p)))
                      (map indexPair registered)
                  = map (fun e => AssetSet Snapshot (fst e) (restored e)) registered).
  { rewrite map_map. apply map_ext_in. intros [a f] Hin%list_elem_of_In.
    cbn [fst snd]. rewrite Hm. by rewrite (collected_asset sj registered tl a f). }
  assert (Hstate' : JsObject.get (members payload registered) "state.json" = Some sj)
    by (by rewrite Hm).
  assert (Hopen : exists pre,
             openFile file
             = pre ++ map (fun e => AssetSet Snapshot (fst e) (restored e)) registered
                   ++ [JsonParse Snapshot sj; SetSnapshot Snapshot payload]
             /\ Forall (fun ev => quiet Snapshot ev = true) pre).
  { unfold OpenFile, openFileBody, file. rewrite zip_name_not_json.
    rewrite (openArchive_run Snapshot parseSnapshot parseAssetIndex unzip
               (mkFile (downloadName getFormattedTime base +:+ ".zip") archive)
               (members payload registered) Hz).
    cbn zeta. rewrite Hstate'. change (blobText (Some sj)) with sj.
    unfold Snapshots.applyState. rewrite Hstate.
    destruct registered as [|e registered'] eqn:Hreg.
    - assert (Hi : JsObject.get (members payload []) "assets.json" = None)
        by (by rewrite Hm).
      rewrite Hi. cbn [fst snd tryLog map].
      eexists. split; [reflexivity | by repeat constructor].
    - rewrite <- Hreg in *.
      assert (Hi : JsObject.get (members payload registered) "assets.json"
                   = Some (stringifyAssets (map indexPair registered))).
      { rewrite Hm. cbn [JsObject.get]. 
        change (String.eqb "state.json" "assets.json") with false. cbn iota.
        rewrite get_app, get_assetMembers.
        - unfold tl. rewrite Hreg. reflexivity.
        - intros id Heq. pose proof (asset_ne_index id) as Hne.
          rewrite <- Heq in Hne. by rewrite String.eqb_refl in Hne. }
      rewrite Hi, Hidx by (rewrite Hreg; done).
      rewrite destructured_Some, Hregs.
      assert (Hall : allDestructured (map Some (map indexPair registered)) = true)
        by (apply allDestructured_spec; by rewrite destructured_Some).
      rewrite Hall. cbn [fst snd tryLog].
      eexists. split; [reflexivity | by repeat constructor]. }
  destruct Hopen as (pre & Hopen & Hpre). exists pre.
  assert (Hreg : registeredBy Snapshot (openFile file)
                 = map (fun e => (fst e, restored e)) registered).
  { rewrite Hopen. unfold registeredBy. rewrite !flat_map_app.
    assert (Hq : flat_map (fun ev : Event Snapshot =>
                             match ev with AssetSet _ a b => [(a, b)] | _ => [] end) pre
                 = []).
    { clear Hopen. induction Hpre as [|ev pre Hev _ IH]; [done|].
      cbn [flat_map]. rewrite IH. by destruct ev. }
    rewrite Hq. cbn [flat_map app]. rewrite app_nil_r.
    clear. induction registered as [|e l IH]; [done|]. cbn [map flat_map app].
    by rewrite IH. }
  split; [done|]. split; [done|]. split; [done|].
  by rewrite Hreg, length_map.
Qed.

End RoundTrip.

(** ** Applying a stored snapshot *)

Section Applying.
Import Snapshots.
Variable Snapshot : Type.

Lemma getEntry_Some (m : Manager Snapshot) id e :
  getEntry Snapshot m id = Some e -> e ∈ entries _ m /\ entryId _ e = id.
Proof.
  unfold getEntry. intros H. apply find_some in H as [Hin Heq].
  split; [by apply list_elem_of_In | by apply String.eqb_eq].
Qed.

Lemma getEntry_None (m : Manager Snapshot) id :
  getEntry Snapshot m id = None -> forall e, e ∈ entries _ m -> entryId _ e <> id.
Proof.
  unfold getEntry. intros H e Hin%list_elem_of_In.
  apply (find_none _ _ H) in Hin. by apply String.eqb_neq.
Qed.

(** C8.  [setCurrent(id)] returns the payload of the entry with that id
    and marks it current, or returns null and leaves the manager alone when
    there is none; the [Apply] handler calls [setSnapshot] with the payload
    returned exactly when the id is found, and touches nothing when
    [setCurrent] returns null. *)
Theorem apply_snapshot_by_id (m : Manager Snapshot) (id : string) :
  ((exists e, e ∈ entries _ m /\ entryId _ e = id)
   <-> exists s, fst (setCurrent Snapshot m id) = Some s)
  /\ (forall e, getEntry Snapshot m id = Some e ->
        e ∈ entries _ m /\ entryId _ e = id
        /\ setCurrent Snapshot m id
           = (Some (snapshot _ e), mkManager Snapshot (entries _ m) (Some id))
        /\ Apply Snapshot m id
           = (mkManager Snapshot (entries _ m) (Some id),
              [SetSnapshot Snapshot (snapshot _ e)]))
  /\ (getEntry Snapshot m id = None ->
        setCurrent Snapshot m id = (None, m) /\ Apply Snapshot m id = (m, []))
  /\ (forall s, fst (setCurrent Snapshot m id) = Some s
                <-> snd (Apply Snapshot m id) = [SetSnapshot Snapshot s])
  /\ (fst (setCurrent Snapshot m id) = None <-> snd (Apply Snapshot m id) = [])
  /\ (forall (Tree : Type) (setSnapshot : Snapshot -> Tree -> Tree) st,
        fst (setCurrent Snapshot m id) = None ->
        run Snapshot Tree setSnapshot st (snd (Apply Snapshot m id)) = st).
Proof.
  unfold Apply, setCurrent.
  destruct (getEntry Snapshot m id) as [e|] eqn:He; cbn [fst snd].
  - destruct (getEntry_Some m id e He) as [Hin Hid].
    split; [split; eauto|]. split; [by intros e' [= <-]|]. split; [done|].
    split; [split; by intros [= ->] | done].
  - split.
    + split; [|by intros [s Hs]].
      intros (e & Hin & Hid). by destruct (getEntry_None m id He e Hin).
    + split; [done|]. split; [done|]. split; [done|]. done.
Qed.

End Applying.

(** ** Uploading a snapshot *)

Section Uploading.
Import JsString Snapshots.
Variable Snapshot : Type.
Variable stringifyRemote : RemoteSnapshot Snapshot -> string.
Variable urlCombine : string -> string -> string.

Lemma hexDigit_unreserved c :
  isUnreserved (hexDigit (charCode c / 16)) = true
  /\ isUnreserved (hexDigit (charCode c mod 16)) = true.
Proof. destruct c as [[] [] [] [] [] [] [] []]; by vm_compute. Qed.

(** The encoded text has no character with a meaning in a query string. *)
Lemma encodeURIComponent_safe s c :
  In c (list_ascii_of_string (encodeURIComponent s)) ->
  isUnreserved c = true \/ c = "%"%char.
Proof.
  induction s as [|d s IH]; simpl; [done|].
  destruct (isUnreserved d) eqn:Hd; simpl.
  - intros [<- | Hin]; [by left | by apply IH].
  - destruct (hexDigit_unreserved d) as [Hhi Hlo].
    intros [<- | [<- | [<- | Hin]]]; [by right | by left | by left | by apply IH].
Qed.

(** C7, as the code has it.  The request goes to [urlCombine serverUrl] of
    [set?name=..&description=..] with both values percent-encoded (only
    unreserved characters and [%] are left in them), by [POST], with the
    JSON text of [{ name, description, playOnLoad, data }] as body and no
    [credentials] member; its [init] carries the string [no-referrer] under
    [referrer] and no [referrerPolicy], so the request the platform builds
    from it never has the referrer [no-referrer]. *)
Theorem upload_request (payload : Snapshot) (name description : option string)
    (playOnLoad : option bool) (serverUrl : string) :
  exists init,
    Upload Snapshot stringifyRemote urlCombine payload name description playOnLoad serverUrl
    = [Fetch Snapshot
         (urlCombine serverUrl
            ("set?name=" +:+ encodeURIComponent (orEmpty name)
             +:+ "&description=" +:+ encodeURIComponent (orEmpty description)))
         init]
    /\ method init = "POST"
    /\ mode init = "cors"
    /\ headers init = [("Content-Type", "application/json; charset=utf-8")]
    /\ body init
       = stringifyRemote (mkRemote Snapshot name description playOnLoad payload)
    /\ credentials init = None
    /\ referrer init = Some "no-referrer"
    /\ referrerPolicy init = None
    /\ (forall parseUrl, requestReferrer parseUrl init <> Ok NoReferrer)
    /\ (forall c,
          In c (list_ascii_of_string (encodeURIComponent (orEmpty name)))
          \/ In c (list_ascii_of_string (encodeURIComponent (orEmpty description))) ->
          isUnreserved c = true \/ c = "%"%char).
Proof.
  eexists. split; [reflexivity|]. repeat split.
  - intros parseUrl. unfold requestReferrer. cbn.
    destruct (parseUrl "no-referrer") as [[u []]|]; discriminate.
  - intros c [Hc | Hc]; by eapply encodeURIComponent_safe.
Qed.

End Uploading.

(** ** Closed instances *)

Section Instances.
Import JsString Snapshots Demo.

Lemma SyncBehaviors_lifecycle_recreate :
  Behaviors.SyncBehaviors
    (Behaviors.updated "r" Behaviors.recreate (Some oldBehavior) (Some newBehavior))
  = [Behaviors.unregister 1; Behaviors.register 2 "r"]
  /\ 0 < 1.
Proof.
  split; [reflexivity|].
  apply (proj1 (proj2 (proj2 (proj2 (proj2
           (SyncBehaviors_lifecycle "r" (Some oldBehavior) (Some newBehavior))))))
           (Behaviors.updated "r" Behaviors.recreate (Some oldBehavior) (Some newBehavior))
           1 0 2 "r" 1); reflexivity.
Defined.

Lemma archive_member_order_two_assets :
  NoDup (map (fun e : Asset * File => assetId (fst e)) registry2)
  /\ archiveMembers string stringifyPayload stringifyIndex "{tree}" registry2
     = [("state.json", "{tree}"); ("assets/a1", "data_1CBS"); ("assets/a2", "MAP ");
        ("assets.json", stringifyIndex [("a1", asset1); ("a2", asset2)])].
Proof.
  assert (Hnd : NoDup (map (fun e : Asset * File => assetId (fst e)) registry2))
    by (apply (bool_decide_unpack _); vm_compute; exact I).
  split; [exact Hnd|].
  destruct (archive_member_order string stringifyPayload stringifyIndex zip "now"
              "{tree}" registry2) as (ms & Heq & _ & Hms & _).
  rewrite Heq, (Hms Hnd). reflexivity.
Defined.

Lemma assets_registered_before_state_demo :
  registeredBy string
    (OpenFile string parsePayload parseIndex unzip
       (mkFile (downloadName "now" (Some "demo") +:+ ".zip")
          (zip (archiveMembers string stringifyPayload stringifyIndex "{tree}" registry2))))
  = [(asset1, Some (mkFile "a1" "data_1CBS")); (asset2, Some (mkFile "a2" "MAP "))].
Proof.
  destruct (proj2 (assets_registered_before_state string parsePayload parseIndex unzip
                     stringifyPayload stringifyIndex zip "now")
              "{tree}" registry2 (Some "demo")) as (_ & pre & _ & _ & Hreg & _).
  - apply (bool_decide_unpack _); vm_compute; exact I.
  - vm_compute; reflexivity.
  - intros _. vm_compute; reflexivity.
  - vm_compute; reflexivity.
  - exact Hreg.
Defined.

Lemma openFile_failure_logged_broken_state :
  openFileBody string parsePayload parseIndex unzip brokenStateArchive
  = (brokenStateTrace, inl (SyntaxError "{"))
  /\ OpenFile string parsePayload parseIndex unzip brokenStateArchive
     = brokenStateTrace ++ [LogError string (SyntaxError "{")].
Proof.
  assert (H : openFileBody string parsePayload parseIndex unzip brokenStateArchive
              = (brokenStateTrace, inl (SyntaxError "{")))
    by (vm_compute; reflexivity).
  split; [exact H|].
  exact (proj1 (openFile_failure_logged string parsePayload parseIndex unzip
                  string restore brokenStateArchive brokenStateTrace
                  (SyntaxError "{") H)).
Defined.

(** A well-formed index followed by a truncated state text: the failure is
    caught and logged, the tree is as before, and the asset of the index
    has been registered all the same. *)
Lemma openFile_failure_registers :
  let tr := OpenFile string parsePayload parseIndex unzip brokenStateArchive in
  tr = brokenStateTrace ++ [LogError string (SyntaxError "{")]
  /\ committed _ (run string string restore before tr) = committed _ before
  /\ registry _ (run string string restore before tr)
     = [(asset1, Some (mkFile "a1" "data_1CBS"))]
  /\ registry _ (run string string restore before tr) <> registry _ before
  /\ run string string restore before tr <> before.
Proof.
  repeat split; try reflexivity; vm_compute; discriminate.
Qed.

Lemma openFile_format_detection_moljson :
  isJsonName (mkFile "foo.moljson" "{x}") = true
  /\ OpenFile string parsePayload parseIndex unzip (mkFile "foo.moljson" "{x}")
     = [ReadFromFile string (mkFile "foo.moljson" "{x}") asString;
        JsonParse string "{x}"; SetSnapshot string "{x}"].
Proof.
  split; [reflexivity|].
  apply (proj1 (proj2 (openFile_format_detection string parsePayload parseIndex unzip
                         (mkFile "foo.moljson" "{x}")))).
  reflexivity.
Defined.

Lemma archive_members_collected_demo :
  exists file,
    JsObject.get (collectAssets [("state.json", "{"); ("assets/a1", "data_1CBS")])
                 (assetKey "assets/a1") = Some file
    /\ name file = assetKey "assets/a1".
Proof.
  apply (proj1 (proj2 (proj2 (proj2 (proj2
           (archive_members_collected string parsePayload parseIndex unzip)))))
           [("state.json", "{"); ("assets/a1", "data_1CBS")] "assets/a1" "data_1CBS").
  - apply list_elem_of_further, list_elem_of_here.
  - reflexivity.
Defined.

Lemma apply_snapshot_by_id_second :
  Apply string twoSnapshots "s2"
  = (mkManager string (entries _ twoSnapshots) (Some "s2"), [SetSnapshot string "{two}"]).
Proof.
  apply (proj1 (proj2 (apply_snapshot_by_id string twoSnapshots "s2"))
           (mkEntry string "s2" (Some "second") None 2 "{two}")).
  reflexivity.
Defined.

End Instances.

(** ** More on removal and visibility *)

Section TreeExtras.
Import StateCommands.

Lemma descends_trans tree t u v :
  descends tree t u -> descends tree u v -> descends tree t v.
Proof.
  induction 1 as [t | t c tc d Hc Htc Hd IH]; [done|].
  intros Hv. eapply descends_child; [done | done | by apply IH].
Qed.

(** The walk ends on the node it started from or on one of its ancestors,
    and never on a root that is not a ghost unless it started there. *)
Lemma ghostWalk_ancestor tree t n :
  keyed tree -> linked tree t n -> transforms tree !! ref t = Some t ->
  forall fuel, n < fuel ->
    exists t', ghostWalk fuel tree t = Some (Ok (ref t'))
               /\ descends tree t' t
               /\ transforms tree !! ref t' = Some t'
               /\ (plainRoot tree -> parent t <> ref t -> parent t' <> ref t').
Proof.
  intros Hkeyed. induction 1 as [t Hroot | t p cs n Hne Hp Hcs Hin Hl IH];
    intros Ht fuel Hfuel.
  - destruct fuel as [|fuel]; [lia|]. exists t.
    rewrite ghostWalk_S, Hroot, String.eqb_refl.
    repeat split; [constructor | done | done].
  - destruct fuel as [|fuel]; [lia|]. rewrite ghostWalk_S.
    apply String.eqb_neq in Hne as Hneb. rewrite Hneb, Hcs.
    destruct (Nat.ltb 1 (length cs)).
    { exists t. repeat split; [constructor | done | done]. }
    rewrite Hp. destruct (isGhost (state p)) eqn:Hg; cbn [negb].
    + pose proof (Hkeyed _ _ Hp) as Hrefp.
      destruct (IH ltac:(by rewrite Hrefp) fuel ltac:(lia)) as (t' & Hw & Hd & Ht' & Hplain).
      exists t'. split; [done|]. split; [|split; [done|]].
      * eapply descends_trans; [exact Hd|].
        eapply descends_child; [| exact Ht | constructor].
        by rewrite Hrefp, Hcs.
      * intros Hpr _. apply Hplain; [done|]. intros Hproot.
        rewrite (Hpr _ _ Hp Hproot) in Hg. done.
    + exists t. repeat split; [constructor | done | done].
Qed.

(** X1.  When no root of the tree is flagged as a ghost, removing a node
    other than the root with the skip-ghost-ancestors option never hands the
    root to [remove]. *)
Theorem removeTarget_spares_root tree r L n fuel :
  keyed tree -> plainRoot tree ->
  transforms tree !! r = Some L -> parent L <> ref L ->
  linked tree L n -> n < fuel ->
  exists t, removeTarget fuel tree r true = Some (Ok (ref t))
            /\ transforms tree !! ref t = Some t
            /\ parent t <> ref t.
Proof.
  intros Hkeyed Hplain HL Hne Hl Hfuel.
  pose proof (Hkeyed _ _ HL) as Href. subst r.
  unfold removeTarget. rewrite HL.
  apply String.eqb_neq in Hne as Hneb. rewrite Hneb.
  destruct (ghostWalk_ancestor tree L n Hkeyed Hl HL fuel Hfuel)
    as (t & Hw & _ & Ht & Hp).
  exists t. split; [done|]. split; [done|]. by apply Hp.
Qed.




Lemma boundedb_spec tree h t : boundedb tree h t = true -> bounded tree h t.
Proof.
  revert t. induction h as [|h IH]; intros t; cbn [boundedb bounded]; [done|].
  rewrite forallb_forall. intros Hall c Hc%list_elem_of_In.
  specialize (Hall c Hc). destruct (transforms tree !! c) as [tc|]; [|done].
  exists tc. split; [done | by apply IH].
Qed.

Lemma setSubtreeVisibility_run st root t v h refs :
  transforms (tree st) !! root = Some t ->
  preOrderRefs h (tree st) t = Some refs ->
  setSubtreeVisibility h st root v
  = Some {| tree := tree st;
            cells := foldl (fun cs r => updateCellState cs r v) (cells st) refs |}.
Proof.
  intros Ht Hrefs. unfold setSubtreeVisibility, setVisibilityVisitor. rewrite Ht.
  rewrite (doPreOrder_fold (tree st) (fun cs r => updateCellState cs r v)).
  by rewrite Hrefs.
Qed.

Lemma setHidden_same v c : isHidden (cellState c) = v -> setHidden v c = c.
Proof. intros <-. by destruct c as [s []]. Qed.

(** X3.  [ToggleVisibility] gives every cell of the subtree the negation of
    the flag of the cell it is called on.  Called twice, it brings that
    cell back to what it was and leaves every cell of the subtree with the
    flag that cell had at first: the state is as before only if the
    subtree agreed with it; the cells outside the subtree are never
    touched. *)
Theorem ToggleVisibility_twice st r t c h :
  transforms (tree st) !! r = Some t -> ref t = r ->
  cells st !! r = Some c -> bounded (tree st) h t ->
  exists st1 st2,
    ToggleVisibility h st r = Some (Ok st1)
    /\ ToggleVisibility h st1 r = Some (Ok st2)
    /\ (forall d c0, descends (tree st) t d -> cells st !! ref d = Some c0 ->
          cells st1 !! ref d = Some (setHidden (negb (isHidden (cellState c))) c0)
          /\ cells st2 !! ref d = Some (setHidden (isHidden (cellState c)) c0))
    /\ cells st2 !! r = Some c
    /\ (forall k, (forall d, descends (tree st) t d -> ref d <> k) ->
          cells st1 !! k = cells st !! k /\ cells st2 !! k = cells st !! k)
    /\ ((forall d c0, descends (tree st) t d -> cells st !! ref d = Some c0 ->
           isHidden (cellState c0) = isHidden (cellState c)) ->
        st2 = st).
Proof.
  intros Ht Hr Hc Hb. set (v := isHidden (cellState c)).
  destruct (preOrderRefs_total (tree st) h t Hb) as [refs Hrefs].
  assert (Hin : r ∈ refs).
  { rewrite <- Hr. eapply descends_listed; [constructor | exact Hrefs]. }
  set (cells1 := foldl (fun cs k => updateCellState cs k (negb v)) (cells st) refs).
  set (cells2 := foldl (fun cs k => updateCellState cs k v) cells1 refs).
  assert (H1 : forall k, cells1 !! k
                = if decide (k ∈ refs) then setHidden (negb v) <$> cells st !! k
                  else cells st !! k) by (intros k; apply hideAll_lookup).
  assert (H2 : forall k, cells2 !! k
                = if decide (k ∈ refs) then setHidden v <$> cells st !! k
                  else cells st !! k).
  { intros k. unfold cells2. rewrite hideAll_lookup, H1.
    destruct (decide (k ∈ refs)); [|done]. by destruct (cells st !! k). }
  exists {| tree := tree st; cells := cells1 |}, {| tree := tree st; cells := cells2 |}.
  split; [|split; [|split; [|split; [|split]]]].
  - unfold ToggleVisibility. rewrite Hc. fold v.
    by rewrite (setSubtreeVisibility_run st r t (negb v) h refs Ht Hrefs).
  - unfold ToggleVisibility. cbn [cells]. rewrite H1, decide_True, Hc by done.
    cbn [fmap option_fmap option_map setHidden cellState withHidden isHidden].
    rewrite negb_involutive.
    by rewrite (setSubtreeVisibility_run {| tree := tree st; cells := cells1 |}
                  r t v h refs Ht Hrefs).
  - intros d c0 Hd Hc0. cbn [cells].
    assert (ref d ∈ refs) by (by eapply descends_listed).
    by rewrite H1, H2, !decide_True, Hc0.
  - cbn [cells]. rewrite H2, decide_True, Hc by done. cbn. f_equal.
    by apply setHidden_same.
  - intros k Hk. cbn [cells].
    assert (k ∉ refs).
    { intros Hk'. destruct (listed_descends (tree st) h t refs k Hrefs Hk') as (d & Hd & Hdk).
      by apply (Hk d). }
    by rewrite H1, H2, !decide_False.
  - intros Hagree. destruct st as [tr cs]. cbn [tree cells] in *. f_equal.
    apply map_eq. intros k. rewrite H2.
    destruct (decide (k ∈ refs)) as [Hk|]; [|done].
    destruct (listed_descends tr h t refs k Hrefs Hk) as (d & Hd & <-).
    destruct (cs !! ref d) as [c0|] eqn:Hc0; [|done]. cbn. f_equal.
    apply setHidden_same. by eapply Hagree.
Qed.

Lemma chain_keyed : keyed chainTree.
Proof.
  change (map_Forall (fun k t => ref t = k) (transforms chainTree)).
  apply (bool_decide_unpack _). vm_compute. exact I.
Defined.


Lemma chain_linked :
  linked chainTree {| parent := "G2"; ref := "L"; state := plain |} 3.
Proof.
  eapply linked_step; [discriminate | reflexivity | reflexivity | apply list_elem_of_here |].
  eapply linked_step; [discriminate | reflexivity | reflexivity | apply list_elem_of_here |].
  eapply linked_step; [discriminate | reflexivity | reflexivity | apply list_elem_of_here |].
  apply linked_root. reflexivity.
Defined.

Lemma removeTarget_spares_root_chain :
  exists t, removeTarget 4 chainTree "L" true = Some (Ok (ref t))
            /\ transforms chainTree !! ref t = Some t
            /\ parent t <> ref t.
Proof.
  apply (removeTarget_spares_root chainTree "L"
           {| parent := "G2"; ref := "L"; state := plain |} 3 4).
  - exact chain_keyed.
  - change (map_Forall (fun k t => parent t = ref t -> isGhost (state t) = false)
              (transforms chainTree)).
    apply (bool_decide_unpack _). vm_compute. exact I.
  - reflexivity.
  - discriminate.
  - exact chain_linked.
  - lia.
Defined.


Lemma ToggleVisibility_twice_mixed :
  exists st1 st2,
    ToggleVisibility 3 mixedState "root" = Some (Ok st1)
    /\ ToggleVisibility 3 st1 "root" = Some (Ok st2)
    /\ cells st2 !! "A" = Some shown.
Proof.
  destruct (ToggleVisibility_twice mixedState "root"
              {| parent := "root"; ref := "root"; state := plain |} shown 3)
    as (st1 & st2 & H1 & H2 & Hsub & _).
  - reflexivity.
  - reflexivity.
  - reflexivity.
  - apply boundedb_spec. vm_compute. reflexivity.
  - exists st1, st2. split; [exact H1|]. split; [exact H2|].
    apply (Hsub {| parent := "root"; ref := "A"; state := plain |}
                {| status := ok; cellState := withHidden true plain |}).
    + eapply descends_child; [apply list_elem_of_here | reflexivity | constructor].
    + reflexivity.
Defined.

End TreeExtras.

(** ** The behavior contract along a run of notifications *)

Section ProtocolFacts.
Import Behaviors BehaviorProtocol.

Local Abbreviation Live := (gmap string (option StateObject)).

Lemma protocol_created (live : Live) reg r obj cs :
  synced live reg -> live !! r = None -> fresh live obj ->
  exists reg', protocol reg (onCreated r obj ++ cs) = protocol reg' cs
               /\ synced (<[r := obj]> live) reg'.
Proof.
  intros [Hreg Hex] Hr Hfresh. unfold onCreated.
  destruct (isBehavior obj) eqn:Hb; cbn [negb app protocol].
  - assert (Hnot : payload obj ∉ reg).
    { intros Hin. apply Hreg in Hin as (r' & o' & Hr' & Hb' & Hp').
      by apply (Hfresh Hb r' o' Hr' Hb'). }
    rewrite decide_False by done. eexists. split; [reflexivity|]. split.
    + intros b. rewrite elem_of_union, elem_of_singleton, Hreg. split.
      * intros [-> | (r' & o' & Hr' & Hb' & Hp')].
        -- exists r, obj. by rewrite lookup_insert_eq.
        -- exists r', o'. rewrite lookup_insert_ne; [done|]. intros ->. congruence.
      * intros (r' & o' & Hr' & Hb' & Hp').
        destruct (decide (r = r')) as [<- | Hne].
        -- rewrite lookup_insert_eq in Hr'. left. congruence.
        -- rewrite lookup_insert_ne in Hr' by done. right. by exists r', o'.
    + intros r1 r2 o1 o2 H1 H2 Hb1 Hb2 Hp.
      destruct (decide (r = r1)) as [<- | Hne1], (decide (r = r2)) as [<- | Hne2];
        [done | | |].
      * rewrite lookup_insert_eq in H1. rewrite lookup_insert_ne in H2 by done.
        injection H1 as <-. by destruct (Hfresh Hb r2 o2 H2 Hb2).
      * rewrite lookup_insert_eq in H2. rewrite lookup_insert_ne in H1 by done.
        injection H2 as <-. by destruct (Hfresh Hb r1 o1 H1 Hb1).
      * rewrite lookup_insert_ne in H1, H2 by done. by apply (Hex r1 r2 o1 o2).
  - exists reg. split; [done|]. split.
    + intros b. rewrite Hreg. split.
      * intros (r' & o' & Hr' & Hb' & Hp'). exists r', o'.
        rewrite lookup_insert_ne; [done|]. intros ->. congruence.
      * intros (r' & o' & Hr' & Hb' & Hp').
        destruct (decide (r = r')) as [<- | Hne].
        -- rewrite lookup_insert_eq in Hr'. congruence.
        -- rewrite lookup_insert_ne in Hr' by done. by exists r', o'.
    + intros r1 r2 o1 o2 H1 H2 Hb1 Hb2 Hp.
      destruct (decide (r = r1)) as [<- | Hne1];
        [rewrite lookup_insert_eq in H1; congruence|].
      destruct (decide (r = r2)) as [<- | Hne2];
        [rewrite lookup_insert_eq in H2; congruence|].
      rewrite lookup_insert_ne in H1, H2 by done. by apply (Hex r1 r2 o1 o2).
Qed.

Lemma protocol_removed (live : Live) reg r obj cs :
  synced live reg -> live !! r = Some obj ->
  exists reg', protocol reg (onRemoved r obj ++ cs) = protocol reg' cs
               /\ synced (base.delete r live) reg'.
Proof.
  intros [Hreg Hex] Hr. unfold onRemoved.
  assert (Hexd : exclusive (base.delete r live)).
  { intros r1 r2 o1 o2 H1 H2.
    apply lookup_delete_Some in H1 as [_ H1]. apply lookup_delete_Some in H2 as [_ H2].
    by apply (Hex r1 r2 o1 o2). }
  destruct (isBehavior obj) eqn:Hb; cbn [negb app protocol].
  - assert (Hin : payload obj ∈ reg) by (apply Hreg; by exists r, obj).
    rewrite decide_True by done. eexists. split; [reflexivity|].
    split; [|done].
    intros b. rewrite elem_of_difference, elem_of_singleton, Hreg. split.
    + intros [(r' & o' & Hr' & Hb' & Hp') Hne]. exists r', o'.
      rewrite lookup_delete_ne; [done|]. intros ->. congruence.
    + intros (r' & o' & Hr' & Hb' & Hp').
      apply lookup_delete_Some in Hr' as [Hne Hr']. split; [by exists r', o'|].
      intros ->. apply Hne. by apply (Hex r r' obj o').
  - exists reg. split; [done|]. split; [|done].
    intros b. rewrite Hreg. split.
    + intros (r' & o' & Hr' & Hb' & Hp'). exists r', o'.
      rewrite lookup_delete_ne; [done|]. intros ->. congruence.
    + intros (r' & o' & Hr' & Hb' & Hp').
      apply lookup_delete_Some in Hr' as [Hne Hr']. by exists r', o'.
Qed.

Lemma onCreated_recreate r oldObj obj :
  onUpdated r recreate oldObj obj = onRemoved r oldObj ++ onCreated r obj.
Proof.
  unfold onUpdated, onRemoved, onCreated.
  by destruct (isBehavior oldObj), (isBehavior obj).
Qed.

Lemma protocol_replay es : forall (live live' : Live) reg,
  synced live reg -> replay live es = Some live' ->
  exists reg', protocol reg (deliver es) = Some reg' /\ synced live' reg'.
Proof.
  induction es as [|e es IH]; intros live live' reg Hs Hrun.
  - injection Hrun as <-. by exists reg.
  - unfold deliver. cbn [flat_map]. fold (deliver es).
    destruct e as [r obj | r obj | r [] oldObj obj]; cbn [replay SyncBehaviors] in *.
    + destruct (live !! r) eqn:Hr; [done|]. destruct (decide _) as [Hf|]; [|done].
      destruct (protocol_created live reg r obj (deliver es) Hs Hr Hf)
        as (reg1 & -> & Hs1).
      by apply (IH _ _ _ Hs1).
    + destruct (decide _) as [Hr|]; [|done].
      destruct (protocol_removed live reg r obj (deliver es) Hs Hr)
        as (reg1 & -> & Hs1).
      by apply (IH _ _ _ Hs1).
    + destruct (decide _) as [Hr|]; [|done]. destruct (decide _) as [Hf|]; [|done].
      rewrite onCreated_recreate, <- List.app_assoc.
      destruct (protocol_removed live reg r oldObj (onCreated r obj ++ deliver es) Hs Hr)
        as (reg1 & -> & Hs1).
      destruct (protocol_created (base.delete r live) reg1 r obj (deliver es) Hs1
                  (lookup_delete_eq live r) Hf) as (reg2 & -> & Hs2).
      rewrite insert_delete_eq in Hs2. by apply (IH _ _ _ Hs2).
    + destruct (decide _) as [Hr|]; [|done]. by apply (IH _ _ _ Hs).
Qed.

(** X4.  Along any run of notifications a state can emit from the empty
    state, the subscriptions keep the contract of every behavior: no
    instance is registered twice in a row or unregistered while it is not
    registered, and after the run the registered instances are exactly
    those the cells still hold. *)
Theorem SyncBehaviors_protocol (es : list ObjectEvent) (live : Live) :
  replay ∅ es = Some live ->
  exists reg, protocol ∅ (deliver es) = Some reg
              /\ forall b, b ∈ reg <-> held live b.
Proof.
  intros Hrun.
  assert (Hs : synced (∅ : Live) ∅).
  { split.
    - intros b. split; [set_solver|]. intros (r & o & Hr & _). by rewrite lookup_empty in Hr.
    - intros r r' o o' Hr. by rewrite lookup_empty in Hr. }
  destruct (protocol_replay es ∅ live ∅ Hs Hrun) as (reg & Hp & Hreg & _).
  by exists reg.
Qed.

Lemma SyncBehaviors_protocol_sample :
  exists reg, protocol ∅ (deliver sampleRun) = Some reg
              /\ forall b, b ∈ reg <-> held {["m" := model]} b.
Proof.
  apply (SyncBehaviors_protocol sampleRun {["m" := model]}). vm_compute. reflexivity.
Defined.

End ProtocolFacts.

(** ** More on export, opening and upload *)

Section SnapshotExtras.
Import JsString Snapshots.
Variable Snapshot : Type.
Variable parseSnapshot : string -> option Snapshot.
Variable parseAssetIndex : string -> option (list (option (string * Asset))).
Variable unzip : string -> option (list (string * string)).

Local Abbreviation openFile := (OpenFile Snapshot parseSnapshot parseAssetIndex unzip).
Local Abbreviation body := (openFileBody Snapshot parseSnapshot parseAssetIndex unzip).

Lemma append_assoc (x y z : string) : (x +:+ y) +:+ z = x +:+ (y +:+ z).
Proof.
  induction x as [|c x IH]; [done|].
  change (String c ((x +:+ y) +:+ z) = String c (x +:+ (y +:+ z))). by rewrite IH.
Qed.

Lemma json_name_is_json (x c : string) : isJsonName (mkFile (x +:+ ".json") c) = true.
Proof.
  unfold isJsonName. cbn [name]. apply endsWith_suffix.
  exists (toLowerCase x +:+ "."). rewrite toLowerCase_append, append_assoc. done.
Qed.


(** X6.  In an archive without a [state.json] member the handler parses
    the text of [undefined]: with a parser that rejects it, no snapshot is
    applied, the run ends with a logged error, and what [assets.json] lists
    is registered all the same; when the index is absent or sound the
    error logged is the syntax error on [undefined]. *)
Theorem missing_state_member (f : File) (data : list (string * string)) :
  isJsonName f = false -> unzip (content f) = Some data ->
  JsObject.get data "state.json" = None ->
  parseSnapshot "undefined" = None ->
  Forall (fun ev => isSetSnapshot Snapshot ev = false) (openFile f)
  /\ (exists init e, openFile f = init ++ [LogError Snapshot e])
  /\ registeredBy Snapshot (openFile f)
     = match JsObject.get data "assets.json" with
       | None => []
       | Some index =>
         match parseAssetIndex index with
         | None => []
         | Some json =>
           map (fun p => (snd p, JsObject.get (collectAssets data) (fst p)))
               (destructured json)
         end
       end
  /\ ((JsObject.get data "assets.json" = None
       \/ exists index json, JsObject.get data "assets.json" = Some index
                             /\ parseAssetIndex index = Some json
                             /\ allDestructured json = true) ->
      exists init, openFile f
                   = init ++ [JsonParse Snapshot "undefined";
                              LogError Snapshot (SyntaxError "undefined")]).
Proof.
  intros Hj Hz Hs Hp.
  assert (Hbody : exists tr e, body f = (tr, inl e)
            /\ ((JsObject.get data "assets.json" = None
                 \/ exists index json, JsObject.get data "assets.json" = Some index
                                       /\ parseAssetIndex index = Some json
                                       /\ allDestructured json = true) ->
                exists init, tr = init ++ [JsonParse Snapshot "undefined"]
                             /\ e = SyntaxError "undefined")).
  { unfold openFileBody. rewrite Hj.
    rewrite (openArchive_run Snapshot parseSnapshot parseAssetIndex unzip f data Hz).
    cbn zeta. rewrite Hs. change (blobText None) with "undefined".
    unfold applyState. rewrite Hp. cbn [fst snd].
    destruct (JsObject.get data "assets.json") as [index|] eqn:Hgi.
    - destruct (parseAssetIndex index) as [json|] eqn:Hpi.
      + destruct (allDestructured json) eqn:Hall.
        * eexists _, _. split; [reflexivity|]. intros _.
          eexists. split; [|reflexivity]. by rewrite !List.app_assoc.
        * eexists _, _. split; [reflexivity|].
          intros [? | (i & j & Hi' & Hj' & Hall')]; [done | simplify_eq; congruence].
      + eexists _, _. split; [reflexivity|].
        intros [? | (i & j & Hi' & Hj' & _)]; [done | simplify_eq].
    - eexists _, _. split; [reflexivity|]. intros _.
      eexists. split; [|reflexivity]. reflexivity. }
  destruct Hbody as (tr & e & Hb & Hsound).
  destruct (failure_trace Snapshot parseSnapshot parseAssetIndex unzip f tr e Hb)
    as [Hsnap _].
  assert (Hopen : openFile f = tr ++ [LogError Snapshot e])
    by (unfold OpenFile; by rewrite Hb).
  rewrite Hopen. split; [|split; [|split]].
  - apply Forall_app. split; [done | by repeat constructor].
  - eauto.
  - rewrite registeredBy_app. cbn [registeredBy flat_map app]. rewrite app_nil_r.
    apply (archive_registered Snapshot parseSnapshot parseAssetIndex unzip
             f data tr (inl e) Hz).
    revert Hb. unfold openFileBody. by rewrite Hj.
  - intros Hok. destruct (Hsound Hok) as (init & -> & ->).
    exists init. by rewrite <- List.app_assoc.
Qed.

(** X7.  An asset that [assets.json] lists, but for which the archive
    holds no member under its id, is still registered, with no file. *)
Theorem listed_asset_without_member (f : File) (data : list (string * string))
    (index : string) (json : list (option (string * Asset))) (id : string) (a : Asset) :
  isJsonName f = false -> unzip (content f) = Some data ->
  JsObject.get data "assets.json" = Some index ->
  parseAssetIndex index = Some json ->
  (id, a) ∈ destructured json ->
  Forall (fun m => isSpecialMember (fst m) = false -> assetKey (fst m) <> id) data ->
  AssetSet Snapshot a None ∈ openFile f.
Proof.
  intros Hj Hz Hi Hp Hin Hnone.
  destruct (registrations_first Snapshot parseSnapshot parseAssetIndex unzip
              f data index json Hj Hz Hi Hp) as (tail & -> & _).
  assert (Hget : JsObject.get (collectAssets data) id = None).
  { unfold collectAssets. rewrite collect_get.
    destruct (memberFor id (JsObject.ownEntries data)) as [v|] eqn:Hm; [|done].
    apply memberFor_Some in Hm as (k & Hk & Hs & Hkey).
    rewrite ownEntries_perm in Hk.
    by destruct (proj1 (List.Forall_forall _ _) Hnone (k, v) (proj1 (list_elem_of_In _ _) Hk) Hs). }
  apply elem_of_app. right. apply elem_of_app. left.
  rewrite <- Hget.
  by apply (list_elem_of_fmap_2
              (fun p : string * Asset =>
                 AssetSet Snapshot (snd p) (JsObject.get (collectAssets data) (fst p)))
              _ (id, a)).
Qed.

Variable stringifySnapshot : Snapshot -> string.
Variable stringifyAssets : list (string * Asset) -> string.
Variable zip : list (string * string) -> string.
Variable getFormattedTime : string.

(** X8.  A plain JSON export carries the state text alone, whatever assets
    are registered; when the parser inverts the serialiser on the payload,
    opening the exported file takes the JSON path, registers nothing and
    applies exactly the payload exported. *)
Theorem json_export_reopens (payload : Snapshot) (registered : list (Asset * File))
    (base : option string) :
  parseSnapshot (stringifySnapshot payload) = Some payload ->
  let fileName := downloadName getFormattedTime base +:+ ".json" in
  let text := stringifySnapshot payload in
  DownloadToFile Snapshot stringifySnapshot stringifyAssets zip getFormattedTime
    payload registered base "json"
  = [Download Snapshot fileName "application/json;charset=utf-8" text]
  /\ openFile (mkFile fileName text)
     = [ReadFromFile Snapshot (mkFile fileName text) asString;
        JsonParse Snapshot text; SetSnapshot Snapshot payload]
  /\ registeredBy Snapshot (openFile (mkFile fileName text)) = [].
Proof.
  intros Hp fileName text. split; [done|].
  assert (Hopen : openFile (mkFile fileName text)
                  = [ReadFromFile Snapshot (mkFile fileName text) asString;
                     JsonParse Snapshot text; SetSnapshot Snapshot payload]).
  { unfold OpenFile, openFileBody, fileName. rewrite json_name_is_json, openJson_run.
    unfold applyState. cbn [content]. subst text. by rewrite Hp. }
  split; [done|]. by rewrite Hopen.
Qed.

End SnapshotExtras.

Section SnapshotSamples.
Import JsString Snapshots Demo Samples.

Lemma missing_state_member_stateless :
  exists init e,
    OpenFile string parsePayload parseIndex unzip statelessArchive
    = init ++ [LogError string e].
Proof.
  refine (proj1 (proj2 (missing_state_member string parsePayload parseIndex unzip
                          statelessArchive
                          [("assets/a1", "data_1CBS");
                           ("assets.json", stringifyIndex [("a1", asset1)])]
                          _ _ _ _))); vm_compute; reflexivity.
Defined.

Lemma listed_asset_without_member_orphan :
  AssetSet string asset2 None
  ∈ OpenFile string parsePayload parseIndex unzip orphanIndexArchive.
Proof.
  refine (listed_asset_without_member string parsePayload parseIndex unzip
            orphanIndexArchive
            [("state.json", "{tree}");
             ("assets.json", stringifyIndex [("a2", asset2)])]
            (stringifyIndex [("a2", asset2)]) [Some ("a2", asset2)] "a2" asset2
            _ _ _ _ _ _).
  - vm_compute; reflexivity.
  - vm_compute; reflexivity.
  - vm_compute; reflexivity.
  - vm_compute; reflexivity.
  - vm_compute. left.
  - repeat constructor; vm_compute; discriminate.
Defined.

Lemma json_export_reopens_tree :
  OpenFile string parsePayload parseIndex unzip
    (mkFile (downloadName "2024-01-01" (Some "session") +:+ ".json")
            (stringifyPayload "{tree}"))
  = [ReadFromFile string
       (mkFile (downloadName "2024-01-01" (Some "session") +:+ ".json")
               (stringifyPayload "{tree}")) asString;
     JsonParse string (stringifyPayload "{tree}"); SetSnapshot string "{tree}"].
Proof.
  refine (proj1 (proj2 (json_export_reopens string parsePayload parseIndex unzip
                          stringifyPayload stringifyIndex zip "2024-01-01"
                          "{tree}" registry2 (Some "session") _))).
  vm_compute; reflexivity.
Defined.

End SnapshotSamples.

Section QueryFacts.
Import JsString Snapshots.

Lemma hexDigit_code d :
  (d < 16)%N -> charCode (hexDigit d) = if (d <? 10)%N then (48 + d)%N else (55 + d)%N.
Proof.
  intros Hd. unfold hexDigit, charCode.
  destruct (d <? 10)%N eqn:H10; apply N_ascii_embedding; lia.
Qed.

Lemma hexDigit_inj d d' :
  (d < 16)%N -> (d' < 16)%N -> hexDigit d = hexDigit d' -> d = d'.
Proof.
  intros Hd Hd' Heq. apply (f_equal charCode) in Heq.
  rewrite !hexDigit_code in Heq by done.
  destruct (N.ltb_spec d 10), (N.ltb_spec d' 10); lia.
Qed.

Lemma escape_inj c c' :
  hexDigit (charCode c / 16) = hexDigit (charCode c' / 16) ->
  hexDigit (charCode c mod 16) = hexDigit (charCode c' mod 16) ->
  c = c'.
Proof.
  intros Hhi Hlo.
  assert (Hc : (charCode c < 256)%N) by apply N_ascii_bounded.
  assert (Hc' : (charCode c' < 256)%N) by apply N_ascii_bounded.
  apply hexDigit_inj in Hhi; [|by apply N.Div0.div_lt_upper_bound..].
  apply hexDigit_inj in Hlo; [|by apply N.mod_lt..].
  assert (Heq : charCode c = charCode c').
  { rewrite (N.div_mod (charCode c) 16), (N.div_mod (charCode c') 16) by done.
    by rewrite Hhi, Hlo. }
  unfold charCode in Heq. rewrite <- (ascii_N_embedding c), <- (ascii_N_embedding c').
  by rewrite Heq.
Qed.

Lemma percent_reserved : isUnreserved "%" = false.
Proof. reflexivity. Qed.

Lemma encodeURIComponent_inj s : forall s',
  encodeURIComponent s = encodeURIComponent s' -> s = s'.
Proof.
  induction s as [|c s IH]; intros [|c' s']; cbn [encodeURIComponent].
  - done.
  - by destruct (isUnreserved c').
  - by destruct (isUnreserved c).
  - destruct (isUnreserved c) eqn:Hc, (isUnreserved c') eqn:Hc'.
    + intros [= -> H]. by rewrite (IH s' H).
    + intros [= -> _]. by rewrite percent_reserved in Hc.
    + intros [= <- _]. by rewrite percent_reserved in Hc'.
    + intros [= Hhi Hlo H]. by rewrite (escape_inj c c' Hhi Hlo), (IH s' H).
Qed.

Lemma ampersand_reserved : isUnreserved "&" = false.
Proof. reflexivity. Qed.

Lemma encoded_no_ampersand s : ~ In "&"%char (list_ascii_of_string (encodeURIComponent s)).
Proof.
  intros Hin. apply encodeURIComponent_safe in Hin as [Hu | Heq]; [|done].
  by rewrite ampersand_reserved in Hu.
Qed.

(** Two texts without an ampersand, each followed by an ampersand and more
    text, agree only part by part. *)
Lemma split_at_ampersand (x x' y y' : string) :
  ~ In "&"%char (list_ascii_of_string x) ->
  ~ In "&"%char (list_ascii_of_string x') ->
  x +:+ String "&" y = x' +:+ String "&" y' -> x = x' /\ y = y'.
Proof.
  revert x'. induction x as [|c x IH]; intros [|c' x'] Hx Hx'.
  - by intros [= ->].
  - change (String "&" y = String c' (x' +:+ String "&" y') -> "" = String c' x' /\ y = y').
    intros [= <- _]. exfalso. apply Hx'. by left.
  - change (String c (x +:+ String "&" y) = String "&" y' -> String c x = "" /\ y = y').
    intros [= -> _]. exfalso. apply Hx. by left.
  - change (String c (x +:+ String "&" y) = String c' (x' +:+ String "&" y')
            -> String c x = String c' x' /\ y = y').
    intros [= -> H]. destruct (IH x') as [-> ->]; [| |done|done].
    + intros Hin. apply Hx. by right.
    + intros Hin. apply Hx'. by right.
Qed.

(** X9.  The query string of an upload determines the name and the
    description it was built from, up to the merging of a missing value
    with the empty one: no choice of name can pass for another name and
    description, and the encoded values hold no ampersand. *)
Theorem uploadQuery_injective (name description name' description' : option string) :
  uploadQuery name description = uploadQuery name' description' ->
  orEmpty name = orEmpty name' /\ orEmpty description = orEmpty description'.
Proof.
  unfold uploadQuery. intros H.
  apply (inj (String.append "set?name=")) in H.
  change ("&description=" +:+ ?z) with (String "&" ("description=" +:+ z)) in H.
  apply split_at_ampersand in H as [Hn Hd]; [|apply encoded_no_ampersand..].
  apply (inj (String.append "description=")) in Hd.
  split; by apply encodeURIComponent_inj.
Qed.

Lemma uploadQuery_injective_missing_name :
  uploadQuery None (Some "a&b") = uploadQuery (Some "") (Some "a&b")
  /\ orEmpty None = orEmpty (Some "").
Proof.
  assert (H : uploadQuery None (Some "a&b") = uploadQuery (Some "") (Some "a&b"))
    by reflexivity.
  split; [exact H|].
  exact (proj1 (uploadQuery_injective None (Some "a&b") (Some "") (Some "a&b") H)).
Defined.

End QueryFacts.

(** ** Bond lines *)

Section BondFacts.
Import BondLines.
Variable arrayIntersectionSize : list Z -> list Z -> Z.

Local Abbreviation scan := (BondLines.scan arrayIntersectionSize).
Local Abbreviation referencePosition := (BondLines.referencePosition arrayIntersectionSize).
Local Abbreviation shared := (BondLines.shared arrayIntersectionSize).

Lemma orient_ends g e aI bI :
  orient g e = (aI, bI) ->
  (aI = at_ (a g) (Some e) /\ bI = at_ (b g) (Some e))
  \/ (aI = at_ (b g) (Some e) /\ bI = at_ (a g) (Some e)).
Proof.
  unfold orient.
  destruct (gt (at_ (a g) (Some e)) (at_ (b g) (Some e)));
    match goal with |- context [single g ?x] => destruct (single g x) end;
    intros [= <- <-]; tauto.
Qed.

(** What the loop returns was accepted by its test on some [i] it ran
    over, unless it was in [vRef] beforehand. *)
Lemma scan_accepted g rings aI bI aR ids : forall m v c,
  scan g rings aI bI aR ids m v = Some c ->
  v = Some c
  \/ (eligible aI bI c = true /\ exists i, i ∈ ids /\ c = at_ (b g) (Some i)).
Proof.
  induction ids as [|i ids IH]; intros m v c; cbn [BondLines.scan].
  - destruct (0 <? m)%Z; [by left | done].
  - assert (Hrest : forall m' v', scan g rings aI bI aR ids m' v' = Some c ->
              v' = Some c
              \/ (eligible aI bI c = true
                  /\ exists j, j ∈ i :: ids /\ c = at_ (b g) (Some j))).
    { intros m' v' H. destruct (IH m' v' c H) as [-> | (He & j & Hj & ->)]; [by left|].
      right. split; [done|]. exists j. split; [by apply list_elem_of_further | done]. }
    destruct (neq (at_ (b g) (Some i)) bI && neq (at_ (b g) (Some i)) aI) eqn:Hel;
      [|apply Hrest].
    assert (Hhere : eligible aI bI (at_ (b g) (Some i)) = true
                    /\ exists j, j ∈ i :: ids /\ at_ (b g) (Some i) = at_ (b g) (Some j)).
    { split; [done|]. exists i. split; [apply list_elem_of_here | done]. }
    destruct aR as [ar|]; [|by intros [= <-]; right].
    destruct (ringsOf rings (at_ (b g) (Some i))) as [br|]; [|apply Hrest].
    destruct (m <? arrayIntersectionSize ar br)%Z; [|apply Hrest].
    intros H. destruct (Hrest _ _ H) as [[= <-] | ?]; [by right | by right].
Qed.

Lemma eligible_spec aI bI c : eligible aI bI c = true <-> c <> bI /\ c <> aI.
Proof.
  unfold eligible, neq. rewrite andb_true_iff, !negb_true_iff, !bool_decide_eq_false.
  tauto.
Qed.

(** X10.  The atom whose position [referencePosition] returns is never an
    end of the bond itself; it is a neighbour, in the adjacency rows, of one
    of the two ends. *)
Theorem referencePosition_neighbour g rings e c :
  referencePosition g rings e = Some c ->
  c <> at_ (a g) (Some e) /\ c <> at_ (b g) (Some e)
  /\ exists x i,
       (x = at_ (a g) (Some e) \/ x = at_ (b g) (Some e))
       /\ i ∈ range g x /\ c = at_ (b g) (Some i).
Proof.
  unfold BondLines.referencePosition. destruct (orient g e) as [aI bI] eqn:Ho.
  intros H. apply scan_accepted in H as [H | (He & i & Hi & ->)]; [done|].
  apply eligible_spec in He as [HbI HaI].
  destruct (orient_ends g e aI bI Ho) as [[-> ->] | [-> ->]].
  - split; [done|]. split; [done|]. exists (at_ (a g) (Some e)), i. tauto.
  - split; [done|]. split; [done|]. exists (at_ (b g) (Some e)), i. tauto.
Qed.

(** Outside a ring the loop is a search for the first accepted neighbour. *)
Lemma scan_first g rings aI bI ids : forall m v,
  scan g rings aI bI None ids m v
  = match List.find (eligible aI bI) (map (fun i => at_ (b g) (Some i)) ids) with
    | Some c => Some c
    | None => if (0 <? m)%Z then v else None
    end.
Proof.
  induction ids as [|i ids IH]; intros m v; cbn [BondLines.scan map List.find]; [done|].
  unfold eligible at 1.
  destruct (neq (at_ (b g) (Some i)) bI && neq (at_ (b g) (Some i)) aI); [done | apply IH].
Qed.

(** Within a ring the loop keeps the first neighbour that shares the most
    rings. *)
Lemma scan_best g rings aI bI ar ids : forall m v,
  (m = 0%Z /\ v = None) \/ ((0 < m)%Z /\ is_Some v) ->
  match scan g rings aI bI (Some ar) ids m v with
  | Some c =>
    (v = Some c /\ (0 < m)%Z
     /\ forall i s', i ∈ ids -> eligible aI bI (at_ (b g) (Some i)) = true ->
                     shared rings ar (at_ (b g) (Some i)) = Some s' -> (s' <= m)%Z)
    \/ (exists s, eligible aI bI c = true /\ (exists i, i ∈ ids /\ c = at_ (b g) (Some i))
                  /\ shared rings ar c = Some s /\ (m < s)%Z
                  /\ forall i s', i ∈ ids -> eligible aI bI (at_ (b g) (Some i)) = true ->
                       shared rings ar (at_ (b g) (Some i)) = Some s' -> (s' <= s)%Z)
  | None =>
    m = 0%Z
    /\ forall i s', i ∈ ids -> eligible aI bI (at_ (b g) (Some i)) = true ->
                    shared rings ar (at_ (b g) (Some i)) = Some s' -> (s' <= 0)%Z
  end.
Proof.
  induction ids as [|i ids IH]; intros m v Hinv; cbn [BondLines.scan].
  - destruct Hinv as [[-> ->] | [Hm [c ->]]].
    + cbn. split; [done|]. by intros i s' Hi%elem_of_nil.
    + apply Z.ltb_lt in Hm as Hm'. rewrite Hm'. left.
      split; [done|]. split; [done|]. by intros i s' Hi%elem_of_nil.
  - fold (eligible aI bI (at_ (b g) (Some i))).
    set (ci := at_ (b g) (Some i)).
    assert (Hskip :
      (eligible aI bI ci = true -> forall s', shared rings ar ci = Some s' -> (s' <= m)%Z) ->
      match scan g rings aI bI (Some ar) ids m v with
      | Some c =>
        (v = Some c /\ (0 < m)%Z
         /\ forall j s', j ∈ i :: ids -> eligible aI bI (at_ (b g) (Some j)) = true ->
               shared rings ar (at_ (b g) (Some j)) = Some s' -> (s' <= m)%Z)
        \/ (exists s, eligible aI bI c = true
               /\ (exists j, j ∈ i :: ids /\ c = at_ (b g) (Some j))
               /\ shared rings ar c = Some s /\ (m < s)%Z
               /\ forall j s', j ∈ i :: ids -> eligible aI bI (at_ (b g) (Some j)) = true ->
                     shared rings ar (at_ (b g) (Some j)) = Some s' -> (s' <= s)%Z)
      | None =>
        m = 0%Z
        /\ forall j s', j ∈ i :: ids -> eligible aI bI (at_ (b g) (Some j)) = true ->
              shared rings ar (at_ (b g) (Some j)) = Some s' -> (s' <= 0)%Z
      end).
    { intros Hi. specialize (IH m v Hinv).
      destruct (scan g rings aI bI (Some ar) ids m v) as [c|].
      - destruct IH as [(Hv & Hm & Hall) | (s & He & (j & Hj & Hc) & Hs & Hms & Hall)].
        + left. split; [done|]. split; [done|].
          intros j s' [-> | Hj]%elem_of_cons He Hs; [by apply Hi | by eapply Hall].
        + right. exists s. split; [done|].
          split; [exists j; split; [by apply list_elem_of_further | done]|].
          split; [done|]. split; [done|].
          intros j' s' [-> | Hj']%elem_of_cons He' Hs'; [|by eapply Hall].
          specialize (Hi He' s' Hs'). lia.
      - destruct IH as [-> Hall]. split; [done|].
        intros j s' [-> | Hj]%elem_of_cons He Hs; [by apply Hi | by eapply Hall]. }
    destruct (eligible aI bI ci) eqn:Hel; [|by apply Hskip].
    unfold BondLines.shared in Hskip |- *. 
    destruct (ringsOf rings ci) as [br|] eqn:Hbr; [|by apply Hskip].
    destruct (Z.ltb_spec m (arrayIntersectionSize ar br)) as [Hlt | Hge].
    + assert (Hm0 : (0 <= m)%Z) by (destruct Hinv as [[-> _] | [? _]]; lia).
      specialize (IH (arrayIntersectionSize ar br) (Some ci)
                    ltac:(right; split; [lia | by eexists])).
      destruct (scan g rings aI bI (Some ar) ids (arrayIntersectionSize ar br) (Some ci))
        as [c|].
      * right.
        destruct IH as [([= <-] & Hpos & Hall) | (s & He & (j & Hj & Hc) & Hs & Hms & Hall)].
        -- exists (arrayIntersectionSize ar br). split; [done|].
           split; [exists i; split; [apply list_elem_of_here | done]|].
           unfold BondLines.shared. rewrite Hbr. split; [done|]. split; [done|].
           intros j s' [-> | Hj]%elem_of_cons He Hs.
           ++ fold ci in Hs. rewrite Hbr in Hs. injection Hs as <-. lia.
           ++ by eapply Hall.
        -- exists s. split; [done|].
           split; [exists j; split; [by apply list_elem_of_further | done]|].
           split; [done|]. split; [lia|].
           intros j' s' [-> | Hj']%elem_of_cons He' Hs'; [|by eapply Hall].
           fold ci in Hs'. rewrite Hbr in Hs'. injection Hs' as <-. lia.
      * destruct IH as [Hz _]. lia.
    + apply Hskip. intros _ s' [= <-]. lia.
Qed.

(** X11.  With the bond oriented as [(aI, bI)]: when [aI] is in no ring the
    result is the first neighbour of [aI] that is neither end of the bond,
    [null] if there is none; when [aI] is in rings the result is such a
    neighbour sharing a positive number of rings with [aI], and no accepted
    neighbour shares more; [null] is returned only when no accepted
    neighbour shares a positive number. *)
Theorem referencePosition_choice g rings e aI bI :
  orient g e = (aI, bI) ->
  (ringsOf rings aI = None ->
   referencePosition g rings e = List.find (eligible aI bI) (neighbours g aI))
  /\ (forall ar, ringsOf rings aI = Some ar ->
        match referencePosition g rings e with
        | Some c =>
          c ∈ neighbours g aI /\ eligible aI bI c = true
          /\ exists s, shared rings ar c = Some s /\ (0 < s)%Z
               /\ forall c' s', c' ∈ neighbours g aI -> eligible aI bI c' = true ->
                     shared rings ar c' = Some s' -> (s' <= s)%Z
        | None =>
          forall c' s', c' ∈ neighbours g aI -> eligible aI bI c' = true ->
                        shared rings ar c' = Some s' -> (s' <= 0)%Z
        end).
Proof.
  intros Ho. unfold BondLines.referencePosition. rewrite Ho. split.
  - intros ->. rewrite scan_first. unfold neighbours.
    by destruct (List.find _ _).
  - intros ar ->.
    pose proof (scan_best g rings aI bI ar (range g aI) 0 None
                  ltac:(left; done)) as H.
    destruct (scan g rings aI bI (Some ar) (range g aI) 0 None) as [c|].
    + destruct H as [([=] & _) | (s & He & (i & Hi & ->) & Hs & Hpos & Hall)].
      split; [by apply (list_elem_of_fmap_2 (fun i => at_ (b g) (Some i)))|].
      split; [done|]. exists s. split; [done|]. split; [done|].
      intros c' s' Hc' He' Hs'.
      apply list_elem_of_fmap_1 in Hc' as (j & -> & Hj). by eapply Hall.
    + destruct H as [_ Hall]. intros c' s' Hc' He' Hs'.
      apply list_elem_of_fmap_1 in Hc' as (j & -> & Hj). by eapply Hall.
Qed.

Section Style.
Variable isBondType : option Z -> Flag.t -> bool.
Local Abbreviation style := (BondLines.style arrayIntersectionSize isBondType).
Local Abbreviation arCount := (BondLines.arCount arrayIntersectionSize).
Local Abbreviation dashedKind := (BondLines.dashedKind isBondType).

Ltac style_cases :=
  repeat split; try done; intros;
  intuition (first [discriminate | congruence | lia]).

(** X12.  The styles are tried in a fixed order: a metallic-coordination or
    hydrogen bond is dashed whatever else holds; otherwise order three is a
    triple bond; otherwise, with aromatic display on, sharing exactly two
    aromatic rings gives the mirrored aromatic style and sharing another
    positive number, or the aromatic flag, the aromatic style; everything
    else is double for order two and solid for the rest.  With aromatic
    display off no bond is drawn aromatic. *)
Theorem style_priority g rings aromaticBonds e :
  let o := at_ (order g) (Some e) in
  let f := at_ (flags g) (Some e) in
  let n := arCount g rings e in
  let s := style g rings aromaticBonds e in
  (s = Dashed <-> dashedKind f = true)
  /\ (s = Triple <-> dashedKind f = false /\ o = Some 3%Z)
  /\ (s = MirroredAromatic
      <-> dashedKind f = false /\ o <> Some 3%Z /\ aromaticBonds = true /\ n = 2%Z)
  /\ (s = Aromatic
      <-> dashedKind f = false /\ o <> Some 3%Z /\ aromaticBonds = true /\ n <> 2%Z
          /\ (n <> 0%Z \/ isBondType f Flag.Aromatic = true))
  /\ (s = Double
      <-> dashedKind f = false /\ o = Some 2%Z
          /\ (aromaticBonds = false
              \/ (n = 0%Z /\ isBondType f Flag.Aromatic = false)))
  /\ (aromaticBonds = false -> s <> Aromatic /\ s <> MirroredAromatic).
Proof.
  cbn zeta. unfold BondLines.style, BondLines.dashedKind.
  destruct (isBondType (at_ (flags g) (Some e)) Flag.MetallicCoordination
            || isBondType (at_ (flags g) (Some e)) Flag.HydrogenBond) eqn:Hd;
    [style_cases|].
  destruct (decide (at_ (order g) (Some e) = Some 3%Z)) as [H3 | H3].
  { rewrite (bool_decide_eq_true_2 _ H3). style_cases. }
  rewrite (bool_decide_eq_false_2 _ H3).
  destruct (decide (at_ (order g) (Some e) = Some 2%Z)) as [Ho | Ho];
    rewrite ?(bool_decide_eq_true_2 _ Ho), ?(bool_decide_eq_false_2 _ Ho);
    (destruct aromaticBonds; [|style_cases]);
    destruct (Z.eqb_spec (arCount g rings e) 0) as [H0 | H0];
    destruct (Z.eqb_spec (arCount g rings e) 2) as [H2 | H2];
    destruct (isBondType (at_ (flags g) (Some e)) Flag.Aromatic) eqn:Har;
    cbn [negb orb]; style_cases.
Qed.

End Style.

End BondFacts.

Section BondSamples.
Import BondLines.

Lemma referencePosition_choice_chain :
  orient chain3 0 = (Some 1%Z, Some 0%Z)
  /\ referencePosition countShared chain3 ∅ 0 = Some (Some 2%Z).
Proof.
  assert (Ho : orient chain3 0 = (Some 1%Z, Some 0%Z)) by reflexivity.
  split; [exact Ho|].
  rewrite (proj1 (referencePosition_choice countShared chain3 ∅ 0 (Some 1%Z) (Some 0%Z) Ho));
    reflexivity.
Defined.

Lemma referencePosition_neighbour_chain :
  referencePosition countShared chain3 ∅ 0 = Some (Some 2%Z)
  /\ Some 2%Z <> at_ (a chain3) (Some 0%Z) /\ Some 2%Z <> at_ (b chain3) (Some 0%Z).
Proof.
  assert (H : referencePosition countShared chain3 ∅ 0 = Some (Some 2%Z)) by reflexivity.
  split; [exact H|].
  destruct (referencePosition_neighbour countShared chain3 ∅ 0 (Some 2%Z) H) as (Ha & Hb & _).
  split; [exact Ha | exact Hb].
Defined.

End BondSamples.

Section UpdateFacts.
Import BondLines.
Variable Num : Type.
Variable strictNeq : Num -> Num -> bool.
Variable Types : Type.
Variable arrayEqual : Types -> Types -> bool.
Variable Graph : Type.
Variable areEqual : Graph -> Graph -> bool.
Variable Rest : Type.

Local Abbreviation setUpdateState :=
  (BondLines.setUpdateState Num strictNeq Types arrayEqual Graph areEqual Rest).
Local Abbreviation propsChanged :=
  (BondLines.propsChanged Num strictNeq Types arrayEqual).
Local Abbreviation bondsChanged := (BondLines.bondsChanged Graph areEqual).

(** X13.  [setUpdateState] overwrites [createGeometry] (what it held before
    plays no part: it is set exactly when a listed property changed or the
    bonds did) and only ever raises [updateTransform], [updateColor] and
    [updateSize], all three together and exactly when both units are atomic
    with different bonds; nothing else of the state is touched. *)
Theorem setUpdateState_flags (state : VisualUpdateState Rest)
    (newProps currentProps : Props Num Types) (newUnit currentUnit : Unit Graph) :
  let state' := setUpdateState state newProps currentProps newUnit currentUnit in
  createGeometry _ state'
  = propsChanged newProps currentProps || bondsChanged newUnit currentUnit
  /\ updateTransform _ state'
     = updateTransform _ state || bondsChanged newUnit currentUnit
  /\ updateColor _ state' = updateColor _ state || bondsChanged newUnit currentUnit
  /\ updateSize _ state' = updateSize _ state || bondsChanged newUnit currentUnit
  /\ rest _ state' = rest _ state
  /\ (forall other : VisualUpdateState Rest,
        createGeometry _ (setUpdateState other newProps currentProps newUnit currentUnit)
        = createGeometry _ state').
Proof.
  assert (Hshape : forall st : VisualUpdateState Rest,
    let st' := setUpdateState st newProps currentProps newUnit currentUnit in
    createGeometry _ st'
    = propsChanged newProps currentProps || bondsChanged newUnit currentUnit
    /\ updateTransform _ st' = updateTransform _ st || bondsChanged newUnit currentUnit
    /\ updateColor _ st' = updateColor _ st || bondsChanged newUnit currentUnit
    /\ updateSize _ st' = updateSize _ st || bondsChanged newUnit currentUnit
    /\ rest _ st' = rest _ st).
  { intros st. unfold BondLines.setUpdateState, BondLines.bondsChanged.
    destruct newUnit as [nb|], currentUnit as [cb|]; cbn;
      rewrite ?orb_false_r; try done.
    destruct (areEqual nb cb); cbn; rewrite ?orb_false_r, ?orb_true_r; done. }
  cbn zeta. destruct (Hshape state) as (Hg & Ht & Hc & Hs & Hr).
  repeat split; try done.
  intros other. destruct (Hshape other) as (Hg' & _). by rewrite Hg, Hg'.
Qed.

End UpdateFacts.
